(** * Opioid / sedative dispensing tracker: cleaning script and dashboard

    A shallow embedding of [clean_data.py] (the batch cleaning script) and
    of the data path of [app.py] (filtering, group-by sums, the IQR outlier
    report), followed by the properties proved about them.

    Modelling conventions
    - text is ASCII ([string] / [list ascii]); case folding is the ASCII one;
    - numbers are exact rationals ([Q]); results are compared with [==];
    - a pandas frame is a header plus labelled rows; a missing value is [NA];
    - Python's [re] patterns are written as regular-expression syntax trees,
      matched by derivatives, and the matcher is proved sound and complete
      against the usual language semantics. *)

From Stdlib Require Import List String Ascii Bool Arith ZArith QArith Qround.
From Stdlib Require Import DecimalString.
From Stdlib Require Import Lia Lqa Permutation Sorted OrdersEx.
Import ListNotations.

Set Implicit Arguments.

(* ===================================================================== *)
(** * Regular expressions ([re.search] with [re.IGNORECASE])             *)
(* ===================================================================== *)

Module Re.

(** ASCII case folding, as done by [str.lower] and by [re.IGNORECASE]. *)
Definition is_upper (c : ascii) : bool :=
  let n := nat_of_ascii c in (65 <=? n)%nat && (n <=? 90)%nat.

Definition lower (c : ascii) : ascii :=
  if is_upper c then ascii_of_nat (nat_of_ascii c + 32) else c.

(** [\s]: tab, LF, VT, FF, CR, the separators 0x1c-0x1f and the space. *)
Definition is_space (c : ascii) : bool :=
  let n := nat_of_ascii c in
  ((9 <=? n)%nat && (n <=? 13)%nat) || ((28 <=? n)%nat && (n <=? 32)%nat).

Inductive regex : Type :=
| Void  : regex                    (* matches nothing *)
| Eps   : regex                    (* the empty pattern *)
| Chr   : ascii -> regex           (* a literal character *)
| Space : regex                    (* \s *)
| Cat   : regex -> regex -> regex  (* r1 r2 *)
| Alt   : regex -> regex -> regex  (* r1|r2 *)
| Star  : regex -> regex.          (* r* *)

(** [r+] *)
Definition Plus (r : regex) : regex := Cat r (Star r).

(** A pattern made of literal characters only. *)
Fixpoint lit (s : string) : regex :=
  match s with
  | EmptyString => Eps
  | String c s' => Cat (Chr c) (lit s')
  end.

Section Matching.

(** The [re.IGNORECASE] flag. *)
Variable ignorecase : bool.

Definition chr_matches (c x : ascii) : bool :=
  if ignorecase then Ascii.eqb (lower c) (lower x) else Ascii.eqb c x.

(** The language of a pattern. *)
Inductive Matches : regex -> list ascii -> Prop :=
| MEps : Matches Eps []
| MChr c x : chr_matches c x = true -> Matches (Chr c) [x]
| MSpace x : is_space x = true -> Matches Space [x]
| MCat r1 r2 w1 w2 :
    Matches r1 w1 -> Matches r2 w2 -> Matches (Cat r1 r2) (w1 ++ w2)
| MAltL r1 r2 w : Matches r1 w -> Matches (Alt r1 r2) w
| MAltR r1 r2 w : Matches r2 w -> Matches (Alt r1 r2) w
| MStar0 r : Matches (Star r) []
| MStarS r w1 w2 :
    Matches r w1 -> Matches (Star r) w2 -> Matches (Star r) (w1 ++ w2).

Fixpoint nullable (r : regex) : bool :=
  match r with
  | Void => false
  | Eps => true
  | Chr _ => false
  | Space => false
  | Cat r1 r2 => nullable r1 && nullable r2
  | Alt r1 r2 => nullable r1 || nullable r2
  | Star _ => true
  end.

Fixpoint deriv (a : ascii) (r : regex) : regex :=
  match r with
  | Void => Void
  | Eps => Void
  | Chr c => if chr_matches c a then Eps else Void
  | Space => if is_space a then Eps else Void
  | Cat r1 r2 =>
      if nullable r1 then Alt (Cat (deriv a r1) r2) (deriv a r2)
      else Cat (deriv a r1) r2
  | Alt r1 r2 => Alt (deriv a r1) (deriv a r2)
  | Star r1 => Cat (deriv a r1) (Star r1)
  end.

(** The whole word is in the language ([re.fullmatch]). *)
Fixpoint fullmatch (r : regex) (w : list ascii) : bool :=
  match w with
  | [] => nullable r
  | a :: w' => fullmatch (deriv a r) w'
  end.

(** Some prefix of the word is in the language ([re.match]). *)
Fixpoint match_ (r : regex) (w : list ascii) : bool :=
  nullable r ||
  match w with
  | [] => false
  | a :: w' => match_ (deriv a r) w'
  end.

(** Some factor of the word is in the language ([re.search]). *)
Fixpoint search_chars (r : regex) (w : list ascii) : bool :=
  match_ r w ||
  match w with
  | [] => false
  | _ :: w' => search_chars r w'
  end.

Definition search (r : regex) (s : string) : bool :=
  search_chars r (list_ascii_of_string s).

End Matching.

End Re.

(* ===================================================================== *)
(** * Frames: the fragment of pandas used by the scripts                 *)
(* ===================================================================== *)

Open Scope string_scope.
Open Scope list_scope.

(** A small error monad: [None] stands for a Python exception (a
    [KeyError] on a column) or for a header in which a requested column
    name is ambiguous, which the scripts are not written for. *)
Definition bind {A B : Type} (m : option A) (k : A -> option B) : option B :=
  match m with
  | Some a => k a
  | None => None
  end.

Notation "x <- m ;; k" := (bind m (fun x => k))
  (at level 61, m at next level, right associativity).

Fixpoint traverse {A B : Type} (f : A -> option B) (l : list A)
  : option (list B) :=
  match l with
  | [] => Some []
  | a :: l' => b <- f a ;; bs <- traverse f l' ;; Some (b :: bs)
  end.

(** A value of a frame: missing ([NaN]), a number, or text. *)
Inductive cell : Type :=
| NA  : cell
| Num : Q -> cell
| Str : string -> cell.

Definition is_na (c : cell) : bool :=
  match c with NA => true | _ => false end.

(** A frame: the header and the rows, each with its index label. *)
Record DataFrame : Type := mkFrame {
  columns : list string;
  rows : list (nat * list cell)
}.

Definition index (df : DataFrame) : list nat := map fst (rows df).

(** [pd.read_csv]: the parsed header and data lines, labelled 0, 1, ... *)
Definition read_csv (header : list string) (lines : list (list cell))
  : DataFrame :=
  mkFrame header (combine (seq 0 (List.length lines)) lines).

(** [df.to_csv(path, index=False)]: header and lines, labels not written. *)
Definition to_csv (df : DataFrame) : list string * list (list cell) :=
  (columns df, map snd (rows df)).

Fixpoint assoc (k : string) (m : list (string * string)) : option string :=
  match m with
  | [] => None
  | (k', v) :: m' => if String.eqb k k' then Some v else assoc k m'
  end.

(** [df.rename(columns=m)] *)
Definition rename (m : list (string * string)) (df : DataFrame) : DataFrame :=
  mkFrame
    (map (fun c => match assoc c m with Some c' => c' | None => c end)
         (columns df))
    (rows df).

(** Positions of a column name in a header, counted from [i]. *)
Fixpoint positions (name : string) (cols : list string) (i : nat)
  : list nat :=
  match cols with
  | [] => []
  | c :: cols' =>
      if String.eqb name c then i :: positions name cols' (S i)
      else positions name cols' (S i)
  end.

Definition col_index (name : string) (cols : list string) : option nat :=
  match positions name cols 0 with
  | [i] => Some i
  | _ => None
  end.

(** [df[[n1, ..., nk]]]: a frame with exactly these columns. *)
Definition getitem_list (names : list string) (df : DataFrame)
  : option DataFrame :=
  idxs <- traverse (fun n => col_index n (columns df)) names ;;
  Some (mkFrame names
          (map (fun r => (fst r, map (fun j => nth j (snd r) NA) idxs))
               (rows df))).

(** [df[name]]: the values of one column, in row order. *)
Definition getitem (name : string) (df : DataFrame) : option (list cell) :=
  i <- col_index name (columns df) ;;
  Some (map (fun r => nth i (snd r) NA) (rows df)).

(** The value of a row under a column name of the header. *)
Definition cell_of (cols : list string) (name : string) (r : list cell)
  : cell :=
  match col_index name cols with
  | Some i => nth i r NA
  | None => NA
  end.

(** [df[mask]] for a boolean series aligned with the rows. *)
Definition getitem_mask (mask : list bool) (df : DataFrame) : DataFrame :=
  mkFrame (columns df)
          (map snd (filter (fun mr => fst mr) (combine mask (rows df)))).

(** No value of the row is missing. *)
Definition no_na (r : list cell) : bool :=
  forallb (fun c => negb (is_na c)) r.

(** [df.dropna()]: rows with a missing value in any column are dropped. *)
Definition dropna (df : DataFrame) : DataFrame :=
  mkFrame (columns df)
          (filter (fun r => no_na (snd r)) (rows df)).

Fixpoint set_nth (i : nat) (v : cell) (r : list cell) : list cell :=
  match r, i with
  | [], _ => []
  | _ :: r', O => v :: r'
  | c :: r', S i' => c :: set_nth i' v r'
  end.

(** [df[name] = values]: overwrites the column of that name when the
    header has one, and appends a new column otherwise. *)
Definition setitem (name : string) (values : list cell) (df : DataFrame)
  : DataFrame :=
  match positions name (columns df) 0 with
  | i :: _ =>
      mkFrame (columns df)
        (map (fun rv => (fst (fst rv), set_nth i (snd rv) (snd (fst rv))))
             (combine (rows df) values))
  | [] =>
      mkFrame (columns df ++ [name])
        (map (fun rv => (fst (fst rv), snd (fst rv) ++ [snd rv]))
             (combine (rows df) values))
  end.

(** ** Element-wise series operations *)

Fixpoint lower_string (s : string) : string :=
  match s with
  | EmptyString => EmptyString
  | String c s' => String (Re.lower c) (lower_string s')
  end.

(** [series.str.lower()]: [NaN] on values that are not text. *)
Definition str_lower (c : cell) : cell :=
  match c with
  | Str s => Str (lower_string s)
  | _ => NA
  end.

(** [series.isin(values)] for a list of text values. *)
Definition isin (values : list string) (c : cell) : bool :=
  match c with
  | Str s => existsb (String.eqb s) values
  | _ => false
  end.

(** [series.str.contains(pat, case=False, regex=True)]: [NaN] (here
    [None]) on values that are not text. *)
Definition str_contains (pat : Re.regex) (c : cell) : option bool :=
  match c with
  | Str s => Some (Re.search true pat s)
  | _ => None
  end.

(** The [na=False] argument of [str.contains]. *)
Definition na_false (b : option bool) : bool :=
  match b with Some b' => b' | None => false end.

(** [series.sum()] of a boolean series, [NaN]s skipped. *)
Definition sum_bool (l : list (option bool)) : nat :=
  List.length (filter (fun b => na_false b) l).

(* ===================================================================== *)
(** * clean_data.py                                                      *)
(* ===================================================================== *)

Module CleanData.

Import Re.

(** The patterns of [us_patterns], in the order of the script:
    [united\s+states], [us], [u\.s\.], [usa], [america], [\s*u\s*s\s*]. *)
Definition pat_united_states : regex :=
  Cat (lit "united") (Cat (Plus Space) (lit "states")).
Definition pat_us : regex := lit "us".
Definition pat_u_s_dots : regex := lit "u.s.".
Definition pat_usa : regex := lit "usa".
Definition pat_america : regex := lit "america".
Definition pat_u_s_spaced : regex :=
  Cat (Star Space)
      (Cat (Chr "u") (Cat (Star Space) (Cat (Chr "s") (Star Space)))).

Definition us_patterns : list regex :=
  [ pat_united_states; pat_us; pat_u_s_dots; pat_usa; pat_america;
    pat_u_s_spaced ].

(** The pattern of the validation check:
    [united\s+states|us|u\.s\.|usa|america]. *)
Definition validation_pattern : regex :=
  Alt pat_united_states
      (Alt pat_us (Alt pat_u_s_dots (Alt pat_usa pat_america))).

(** The column mapping of [df.rename]. *)
Definition renaming : list (string * string) :=
  [ ("State Name", "state"); ("Year", "year"); ("Month", "month");
    ("Indicator", "drug_type"); ("Data Value", "deaths") ].

Definition kept_columns : list string :=
  [ "state"; "year"; "month"; "drug_type"; "deaths" ].

(** The header after the renaming of the script. *)
Definition renamed (header : list string) : list string :=
  columns (rename renaming (mkFrame header [])).

Arguments renamed : simpl never.

(** What the script produces: the written file and the validation count. *)
Record Report : Type := mkReport {
  csv : list string * list (list cell);
  remaining_us : nat;
  warning : bool;
  total_records : nat
}.

Section Script.

(** Two library functions are left abstract: the text-to-number
    conversion inside [pd.to_numeric] ([None] when the text is not a
    number) and Python's [str] of a number. *)
Variable parse_number : string -> option Q.
Variable number_str : Q -> string.

(** [str(x)] *)
Definition py_str (x : cell) : string :=
  match x with
  | Str s => s
  | Num q => number_str q
  | NA => "nan"
  end.

(** [pd.to_numeric(series, errors="coerce")], element-wise. *)
Definition to_numeric (c : cell) : cell :=
  match c with
  | Num q => Num q
  | Str s => match parse_number s with Some q => Num q | None => NA end
  | NA => NA
  end.

(** The lambda of [us_mask]: no pattern is found in the state name. *)
Definition not_us (x : cell) : bool :=
  negb (existsb (fun pattern => search true pattern (py_str x)) us_patterns).

(** Lines 8-51 of the script: from the frame read to the frame written. *)
Definition clean (df : DataFrame) : option DataFrame :=
  let df := rename renaming df in
  df <- getitem_list kept_columns df ;;
  let df := dropna df in
  state <- getitem "state" df ;;
  let us_mask := map not_us state in
  let df := getitem_mask us_mask df in
  drug_type <- getitem "drug_type" df ;;
  let df :=
    getitem_mask
      (map (fun c => negb (isin ["number of deaths"] (str_lower c)))
           drug_type) df in
  drug_type <- getitem "drug_type" df ;;
  let df :=
    getitem_mask
      (map (fun c => na_false (str_contains (lit "opioid") c)) drug_type)
      df in
  deaths <- getitem "deaths" df ;;
  let df := setitem " deaths" (map to_numeric deaths) df in
  Some (dropna df).

(** Lines 54-58: the number of remaining rows that look like US data. *)
Definition count_remaining_us (df : DataFrame) : option nat :=
  state <- getitem "state" df ;;
  Some (sum_bool (map (str_contains validation_pattern) state)).

(** The whole script, from the parsed input file to its report. *)
Definition script (header : list string) (lines : list (list cell))
  : option Report :=
  df <- clean (read_csv header lines) ;;
  n <- count_remaining_us df ;;
  Some (mkReport (to_csv df) n (0 <? n)%nat (List.length (rows df))).

End Script.

(** ** Sample instances of the two library functions, for examples *)

Definition digit_value (c : ascii) : option Z :=
  let n := nat_of_ascii c in
  if ((48 <=? n)%nat && (n <=? 57)%nat)%bool then Some (Z.of_nat (n - 48))
  else None.

Fixpoint parse_digits (s : string) (acc : Z) : option Z :=
  match s with
  | EmptyString => Some acc
  | String c s' =>
      match digit_value c with
      | Some d => parse_digits s' (10 * acc + d)%Z
      | None => None
      end
  end.

(** Signed decimal integers: [-]digits. *)
Definition parse_integer (s : string) : option Q :=
  match s with
  | EmptyString => None
  | String "-" (String c s') =>
      match parse_digits (String c s') 0 with
      | Some n => Some (inject_Z (- n))
      | None => None
      end
  | _ =>
      match parse_digits s 0 with
      | Some n => Some (inject_Z n)
      | None => None
      end
  end.

(** The decimal text of the integer part of a number: what [str] gives
    for a whole number. *)
Definition show_number (q : Q) : string :=
  NilZero.string_of_int (Z.to_int (Qfloor q)).

Definition raw_header : list string :=
  [ "State Name"; "Year"; "Month"; "Indicator"; "Data Value" ].

Definition run := script parse_integer show_number raw_header.

End CleanData.

(* ===================================================================== *)
(** * app.py: the dashboard's data path                                  *)
(* ===================================================================== *)

Module App.

(** The categories of the [month] column, in the order of [month_order]. *)
Inductive Month : Type :=
| January | February | March | April | May | June
| July | August | September | October | November | December.

Definition month_code (m : Month) : Z :=
  match m with
  | January => 0 | February => 1 | March => 2 | April => 3
  | May => 4 | June => 5 | July => 6 | August => 7
  | September => 8 | October => 9 | November => 10 | December => 11
  end.

(** A row of the frame returned by [load_data]: [month] is categorical,
    [None] being the [NaN] of a text that is no category; [deaths] is
    never missing (such rows are dropped by [load_data]). *)
Record Row : Type := mkRow {
  state : string;
  year : Z;
  month : option Month;
  drug_type : string;
  deaths : Q
}.

(** The locals of [load_data] that drop US rows (lines 23-34): the six
    patterns again, searched in the stripped, lower-cased state text. *)
Module LoadData.

Definition us_patterns : list Re.regex :=
  [ CleanData.pat_united_states; CleanData.pat_us; CleanData.pat_u_s_dots;
    CleanData.pat_usa; CleanData.pat_america; CleanData.pat_u_s_spaced ].

Definition us_mask (x : string) : bool :=
  negb (existsb (fun pattern => Re.search true pattern x) us_patterns).

End LoadData.

(** The sidebar selections. *)
Record Criteria : Type := mkCriteria {
  selected_states : list string;
  selected_years : Z * Z;
  selected_drugs : list string
}.

(** [series.isin(values)] *)
Definition isin (x : string) (values : list string) : bool :=
  existsb (String.eqb x) values.

(** [series.between(left, right)], both ends included. *)
Definition between (x left right : Z) : bool :=
  ((left <=? x) && (x <=? right))%Z.

(** Lines 88-92. *)
Definition filtered_df (df : list Row) (c : Criteria) : list Row :=
  filter (fun r =>
            isin (state r) (selected_states c) &&
            between (year r) (fst (selected_years c)) (snd (selected_years c)) &&
            isin (drug_type r) (selected_drugs c))
         df.

(** [series.sum()] *)
Definition sum (l : list Q) : Q := fold_left Qplus l 0.

(** ** Group-by sums *)

(** Keys are compared to sort the groups. *)
Class Compare (K : Type) : Type := cmp : K -> K -> comparison.

#[export] Instance Compare_Z : Compare Z := Z.compare.
#[export] Instance Compare_string : Compare string :=
  String_as_OT.compare.
#[export] Instance Compare_Month : Compare Month :=
  fun a b => Z.compare (month_code a) (month_code b).
#[export] Instance Compare_prod {A B : Type} `{Compare A} `{Compare B}
  : Compare (A * B) :=
  fun x y =>
    match cmp (fst x) (fst y) with
    | Eq => cmp (snd x) (snd y)
    | c => c
    end.

Section GroupBy.

Context {K : Type} `{Compare K}.

(** The grouping key of a row; [None] when a key column is [NaN], in
    which case [groupby] leaves the row out. *)
Variable key : Row -> option K.

Definition has_key (k : K) (r : Row) : bool :=
  match key r with
  | Some k' => match cmp k k' with Eq => true | _ => false end
  | None => false
  end.

Fixpoint insert_key (k : K) (ks : list K) : list K :=
  match ks with
  | [] => [k]
  | k' :: ks' =>
      match cmp k k' with
      | Lt => k :: ks
      | Eq => ks
      | Gt => k' :: insert_key k ks'
      end
  end.

(** The distinct keys, sorted. *)
Fixpoint group_keys (df : list Row) : list K :=
  match df with
  | [] => []
  | r :: df' =>
      match key r with
      | Some k => insert_key k (group_keys df')
      | None => group_keys df'
      end
  end.

(** The rows of an aggregate: for each key of [keys], the sum of the
    [deaths] of the rows of that key. *)
Definition sum_groups (keys : list K) (df : list Row) : list (K * Q) :=
  map (fun k => (k, sum (map deaths (filter (has_key k) df)))) keys.

(** [df.groupby(keys, as_index=False)["deaths"].sum()] over columns that
    are not categorical: one row per key that occurs, in key order. *)
Definition groupby_sum (df : list Row) : list (K * Q) :=
  sum_groups (group_keys df) df.

End GroupBy.

(** Lines 105-109: deaths by year, month and state. *)
Definition trend_key (r : Row) : option (Z * Month * string) :=
  match month r with
  | Some m => Some (year r, m, state r)
  | None => None
  end.

Definition month_order : list Month :=
  [ January; February; March; April; May; June;
    July; August; September; October; November; December ].

(** The keys of the trend aggregate. [month] is categorical, so the
    [observed] argument of [groupby] matters; the script leaves it to
    the default, which is [False] before pandas 3 and [True] from it.
    With [observed=True] the keys are those that occur; with
    [observed=False] they are all combinations of a year that occurs,
    a month of [month_order] and a state that occurs. *)
Definition trend_keys (observed : bool) (filtered : list Row)
  : list (Z * Month * string) :=
  if observed then group_keys trend_key filtered
  else
    list_prod
      (list_prod (group_keys (fun r => Some (year r)) filtered) month_order)
      (group_keys (fun r => Some (state r)) filtered).

Definition trend_df (observed : bool) (filtered : list Row)
  : list (Z * Month * string * Q) :=
  sum_groups trend_key (trend_keys observed filtered) filtered.

(** Lines 154-158: deaths by drug type over the selected years. *)
Definition pie_df (df : list Row) (c : Criteria) : list (string * Q) :=
  groupby_sum (fun r => Some (drug_type r))
    (filter (fun r => between (year r) (fst (selected_years c))
                              (snd (selected_years c))) df).

(** ** Outlier detection (lines 173-186) *)

(** [series.unique()]: the values in order of first appearance. *)
Fixpoint unique_from (seen l : list string) : list string :=
  match l with
  | [] => []
  | x :: l' =>
      if existsb (String.eqb x) seen then unique_from seen l'
      else x :: unique_from (x :: seen) l'
  end.

Definition unique (l : list string) : list string := unique_from [] l.

Fixpoint insert_sorted (x : Q) (l : list Q) : list Q :=
  match l with
  | [] => [x]
  | y :: l' => if Qle_bool x y then x :: l else y :: insert_sorted x l'
  end.

Fixpoint sort (l : list Q) : list Q :=
  match l with
  | [] => []
  | x :: l' => insert_sorted x (sort l')
  end.

(** [series.quantile(q)] with the default linear interpolation: the
    value at the fractional rank [(n - 1) * q] of the sorted values,
    [NaN] (here [None]) for an empty series. *)
Definition quantile (q : Q) (values : list Q) : option Q :=
  match values with
  | [] => None
  | _ =>
      let a := sort values in
      let n := List.length a in
      let pos := inject_Z (Z.of_nat (n - 1)) * q in
      let lo := Z.to_nat (Qfloor pos) in
      let hi := Nat.min (lo + 1) (n - 1) in
      let frac := pos - inject_Z (Qfloor pos) in
      Some (nth lo a 0 + (nth hi a 0 - nth lo a 0) * frac)
  end.

Definition state_data (filtered : list Row) (s : string) : list Row :=
  filter (fun r => String.eqb (state r) s) filtered.

Definition Q1 (state_data : list Row) : option Q :=
  quantile (1 # 4) (map deaths state_data).

Definition Q3 (state_data : list Row) : option Q :=
  quantile (3 # 4) (map deaths state_data).

Definition IQR (state_data : list Row) : option Q :=
  match Q3 state_data, Q1 state_data with
  | Some q3, Some q1 => Some (q3 - q1)
  | _, _ => None
  end.

Definition upper_bound (state_data : list Row) : option Q :=
  match Q3 state_data, IQR state_data with
  | Some q3, Some iqr => Some (q3 + (3 # 2) * iqr)
  | _, _ => None
  end.

(** [x > bound]; a comparison with [NaN] is false. *)
Definition gt (x : Q) (bound : option Q) : bool :=
  match bound with
  | Some b => negb (Qle_bool x b)
  | None => false
  end.

Definition state_outliers (state_data : list Row) : list Row :=
  filter (fun r => gt (deaths r) (upper_bound state_data)) state_data.

Definition outliers (filtered : list Row) : list Row :=
  flat_map (fun s => state_outliers (state_data filtered s))
           (unique (map state filtered)).

(** ** [load_data] (lines 14-57) *)

(** [str.strip()]: white space removed at both ends. *)
Fixpoint lstrip (l : list ascii) : list ascii :=
  match l with
  | [] => []
  | a :: l' => if Re.is_space a then lstrip l' else l
  end.

Definition strip_chars (l : list ascii) : list ascii :=
  rev (lstrip (rev (lstrip l))).

Definition strip (s : string) : string :=
  string_of_list_ascii (strip_chars (list_ascii_of_string s)).

(** [str.title()]: a letter that follows a letter is put in lower case,
    any other letter in upper case. *)
Definition is_lower (c : ascii) : bool :=
  let n := nat_of_ascii c in (97 <=? n)%nat && (n <=? 122)%nat.

Definition upper (c : ascii) : ascii :=
  if is_lower c then ascii_of_nat (nat_of_ascii c - 32) else c.

Definition is_cased (c : ascii) : bool := Re.is_upper c || is_lower c.

Fixpoint title_chars (previous_is_cased : bool) (l : list ascii)
  : list ascii :=
  match l with
  | [] => []
  | c :: l' =>
      (if previous_is_cased then Re.lower c else upper c)
      :: title_chars (is_cased c) l'
  end.

Definition title (s : string) : string :=
  string_of_list_ascii (title_chars false (list_ascii_of_string s)).

(** [pd.Categorical(values, categories=month_order)]: the category of
    that name, [NaN] for any other text. *)
Definition month_name (m : Month) : string :=
  match m with
  | January => "January" | February => "February" | March => "March"
  | April => "April" | May => "May" | June => "June"
  | July => "July" | August => "August" | September => "September"
  | October => "October" | November => "November" | December => "December"
  end.

Definition categorical (value : string) : option Month :=
  find (fun m => String.eqb value (month_name m))
       [ January; February; March; April; May; June;
         July; August; September; October; November; December ].

(** A record of the cleaned file as [pd.read_csv] gives it: text under
    [state], [month] and [drug_type], an integer under [year], and
    under [deaths] a number, a text or nothing. *)
Record CsvRow : Type := mkCsvRow {
  csv_state : string;
  csv_year : Z;
  csv_month : string;
  csv_drug_type : string;
  csv_deaths : cell
}.

Section Load.

(** The text-to-number conversion inside [pd.to_numeric]. *)
Variable parse_number : string -> option Q.

Definition load_data (csv : list CsvRow) : list Row :=
  (* lines 18-20: normalize text *)
  let df :=
    map (fun r => mkCsvRow (lower_string (strip (csv_state r))) (csv_year r)
                           (strip (csv_month r)) (strip (csv_drug_type r))
                           (csv_deaths r)) csv in
  (* lines 31-34: remove all variations of US *)
  let df := filter (fun r => LoadData.us_mask (csv_state r)) df in
  (* line 37: restore original case *)
  let df :=
    map (fun r => mkCsvRow (title (csv_state r)) (csv_year r) (csv_month r)
                           (csv_drug_type r) (csv_deaths r)) df in
  (* lines 40-55: numeric deaths, categorical month, rows without deaths
     dropped *)
  flat_map (fun r =>
              match CleanData.to_numeric parse_number (csv_deaths r) with
              | Num q => [mkRow (csv_state r) (csv_year r)
                                (categorical (csv_month r))
                                (csv_drug_type r) q]
              | _ => []
              end) df.

End Load.

(** ** Sidebar (lines 70-85) *)

(** [sorted(values)] for text values. *)
Fixpoint insert_string (x : string) (l : list string) : list string :=
  match l with
  | [] => [x]
  | y :: l' =>
      match cmp x y with
      | Gt => y :: insert_string x l'
      | _ => x :: l
      end
  end.

Fixpoint sorted (l : list string) : list string :=
  match l with
  | [] => []
  | x :: l' => insert_string x (sorted l')
  end.

Definition states (df : list Row) : list string :=
  sorted (unique (map state df)).

Definition drug_types (df : list Row) : list string :=
  sorted (unique (map drug_type df)).

(** [int(series.min())] and [int(series.max())]: an error ([None]) on
    an empty frame, where the minimum is [NaN]. *)
Definition year_min (df : list Row) : option Z :=
  match map year df with
  | [] => None
  | y :: ys => Some (fold_left Z.min ys y)
  end.

Definition year_max (df : list Row) : option Z :=
  match map year df with
  | [] => None
  | y :: ys => Some (fold_left Z.max ys y)
  end.

(** The selections when the page opens: the first three states, the
    whole range of years, every drug type. *)
Definition default_criteria (df : list Row) : option Criteria :=
  match year_min df, year_max df with
  | Some lo, Some hi =>
      Some (mkCriteria (firstn 3 (states df)) (lo, hi) (drug_types df))
  | _, _ => None
  end.

(** ** Metrics (lines 95-98) *)

Definition total_deaths (filtered : list Row) : Q :=
  sum (map deaths filtered).

(** [series.mean()]: [NaN] (here [None]) on an empty frame. *)
Definition average_deaths (filtered : list Row) : option Q :=
  match filtered with
  | [] => None
  | _ => Some (total_deaths filtered
               / inject_Z (Z.of_nat (List.length filtered)))
  end.

(** [series.nunique()] *)
Definition states_selected (filtered : list Row) : nat :=
  List.length (unique (map state filtered)).

End App.

(* ===================================================================== *)
(** * Notions used to state the properties                               *)
(* ===================================================================== *)

Module Notions.

Import Re CleanData App.

(** A word occurs in a text, ASCII case ignored. *)
Fixpoint prefix_ci (p s : list ascii) : bool :=
  match p with
  | [] => true
  | a :: p' =>
      match s with
      | [] => false
      | b :: s' => Ascii.eqb (lower a) (lower b) && prefix_ci p' s'
      end
  end.

Fixpoint occurs_ci (p s : list ascii) : bool :=
  prefix_ci p s ||
  match s with
  | [] => false
  | _ :: s' => occurs_ci p s'
  end.

Definition contains_ci (sub s : string) : bool :=
  occurs_ci (list_ascii_of_string sub) (list_ascii_of_string s).

(** Some pattern of [us_patterns] is found in a region name. *)
Definition is_us (s : string) : bool :=
  existsb (fun pattern => search true pattern s) us_patterns.

(** The data lines of the file written. *)
Definition written_lines (r : Report) : list (list cell) := snd (csv r).

(** Sample input lines, in the column order of [raw_header]. *)
Definition line (state : string) (deaths : cell) : list cell :=
  [Str state; Num 2020; Str "January"; Str "Opioids"; deaths].

Definition sample_lines : list (list cell) :=
  [ line "Ohio" (Str "12");
    line "United States" (Str "5000");
    line "us" (Str "40");
    line "Massachusetts" (Str "50");
    line "Ohio" (Str "n/a");
    line "Ohio" (Num (-5)) ].

(** The frame the script writes for [sample_lines], with the sample
    instances of the library functions. *)
Definition sample_cleaned : DataFrame :=
  Eval vm_compute in
    match clean parse_integer show_number (read_csv raw_header sample_lines)
    with
    | Some df => df
    | None => mkFrame [] []
    end.

Definition sample_report : Report :=
  Eval vm_compute in
    match script parse_integer show_number raw_header sample_lines with
    | Some r => r
    | None => mkReport ([], []) 0 false 0
    end.

(** Two aggregated rows agree: same key, equal sums. *)
Definition same_group {K : Type} (a b : K * Q) : Prop :=
  fst a = fst b /\ snd a == snd b.

(** The key order used to sort the groups, as a relation. *)
Definition key_lt {K : Type} `{Compare K} (x y : K) : Prop := cmp x y = Lt.

(** What a key order has to satisfy. *)
Class CompareLaws (K : Type) `{Compare K} : Prop := {
  cmp_eq : forall x y : K, cmp x y = Eq -> x = y;
  cmp_refl : forall x : K, cmp x x = Eq;
  cmp_antisym : forall x y : K, cmp y x = CompOpp (cmp x y);
  cmp_trans : forall x y z : K, cmp x y = Lt -> cmp y z = Lt -> cmp x z = Lt
}.

Arguments CompareLaws K {_}.

(** Comparison of two quantile results, [None] being [NaN]. *)
Definition opt_le (a b : option Q) : Prop :=
  match a, b with
  | Some x, Some y => x <= y
  | None, None => True
  | _, _ => False
  end.

Definition opt_eq (a b : option Q) : Prop :=
  match a, b with
  | Some x, Some y => x == y
  | None, None => True
  | _, _ => False
  end.

(** The frame with the [deaths] value of its [i]-th row replaced. *)
Definition set_deaths (v : Q) (r : Row) : Row :=
  mkRow (state r) (year r) (month r) (drug_type r) v.

Fixpoint replace_deaths (i : nat) (v : Q) (df : list Row) : list Row :=
  match df, i with
  | [], _ => []
  | r :: df', O => set_deaths v r :: df'
  | r :: df', S i' => r :: replace_deaths i' v df'
  end.

(** Sample rows of the dashboard frame. *)
Definition ohio (d : Z) : Row :=
  mkRow "Ohio" 2020 (Some January) "Opioids" (inject_Z d).

Definition texas (m : Month) (drug : string) (d : Z) : Row :=
  mkRow "Texas" 2021 (Some m) drug (inject_Z d).

End Notions.

(* ===================================================================== *)
(** * Further notions, for the properties of the remaining code          *)
(* ===================================================================== *)

Module MoreNotions.

Import Re CleanData Notions.

Section Lines.

Variable parse_number : string -> option Q.
Variable number_str : Q -> string.

(** The five values the script reads from an input line. *)
Definition fields (header : list string) (l : list cell) : list cell :=
  map (fun name => cell_of (renamed header) name l) kept_columns.

(** The tests of the script on one input line, in its order: no missing
    field, no US pattern, not the summary label, an opioid category, a
    [deaths] value that converts. *)
Definition line_kept (header : list string) (l : list cell) : bool :=
  no_na (fields header l) &&
  not_us number_str (cell_of (renamed header) "state" l) &&
  negb (isin ["number of deaths"]
          (str_lower (cell_of (renamed header) "drug_type" l))) &&
  na_false (str_contains (lit "opioid")
              (cell_of (renamed header) "drug_type" l)) &&
  negb (is_na (to_numeric parse_number (cell_of (renamed header) "deaths" l))).

(** What is written for an input line that is kept. *)
Definition written_row (header : list string) (l : list cell) : list cell :=
  fields header l ++
  [to_numeric parse_number (cell_of (renamed header) "deaths" l)].

End Lines.

(** A value is present (not [NaN]). *)
Definition is_some {A : Type} (o : option A) : bool :=
  match o with Some _ => true | None => false end.

(** Sample records of a cleaned file, as the dashboard reads them. *)
Definition sample_csv : list App.CsvRow :=
  [ App.mkCsvRow " ohio " 2020 "January" "Opioids" (Str "12");
    App.mkCsvRow "New York" 2021 "march" " Heroin " (Num 3);
    App.mkCsvRow "Texas" 2021 "May" "Opioids" (Str "n/a") ].

Definition sample_frame : list App.Row :=
  [ App.mkRow "Ohio" 2020 (Some App.January) "Opioids" 10;
    App.mkRow "Texas" 2021 (Some App.March) "Heroin" 100;
    App.mkRow "Ohio" 2022 None "Heroin" 7 ].

End MoreNotions.

(* ===================================================================== *)
(** * Facts about lists                                                  *)
(* ===================================================================== *)

Module ListFacts.

Lemma mask_filter {A : Type} (g : A -> bool) (l : list A) :
  map snd (filter (fun mr => fst mr) (combine (map g l) l)) = filter g l.
Proof.
  induction l as [| a l IH]; simpl; [reflexivity|].
  destruct (g a); simpl; rewrite IH; reflexivity.
Qed.

Lemma combine_map_self {A B : Type} (h : A -> B) (l : list A) :
  combine l (map h l) = map (fun a => (a, h a)) l.
Proof.
  induction l as [| a l IH]; simpl; [reflexivity | rewrite IH; reflexivity].
Qed.

Lemma In_combine_seq {A : Type} (l : list A) : forall a i x,
  In (i, x) (combine (seq a (List.length l)) l) ->
  (a <= i)%nat /\ nth_error l (i - a) = Some x.
Proof.
  induction l as [| y l IH]; simpl; intros a i x H; [contradiction|].
  destruct H as [H | H].
  - injection H as <- <-. rewrite Nat.sub_diag. split; [lia | reflexivity].
  - apply IH in H as [Hle H]. split; [lia|].
    replace (i - a)%nat with (S (i - S a)) by lia. exact H.
Qed.

Lemma traverse_map {A B C : Type} (f : A -> option B) (g : B -> C) (d : C) :
  forall l bs, traverse f l = Some bs ->
  map g bs = map (fun a => match f a with Some b => g b | None => d end) l.
Proof.
  induction l as [| a l IH]; simpl; intros bs H.
  - injection H as <-. reflexivity.
  - destruct (f a) as [b|]; simpl in H; [| discriminate].
    destruct (traverse f l) as [bs'|]; simpl in H; [| discriminate].
    injection H as <-. simpl. rewrite (IH bs' eq_refl). reflexivity.
Qed.

Lemma filter_nil_forall {A : Type} (f : A -> bool) (l : list A) :
  (forall x, In x l -> f x = false) -> filter f l = [].
Proof.
  induction l as [| a l IH]; simpl; intros H; [reflexivity|].
  rewrite (H a) by (left; reflexivity). apply IH. intros x Hx. apply H. auto.
Qed.

Lemma filter_permutation {A : Type} (f : A -> bool) l l' :
  Permutation l l' -> Permutation (filter f l) (filter f l').
Proof.
  induction 1 as [| x l l' _ IH | x y l | l l' l'' _ IH1 _ IH2]; simpl.
  - constructor.
  - destruct (f x); [constructor|]; exact IH.
  - destruct (f x), (f y); try reflexivity. constructor.
  - etransitivity; eassumption.
Qed.

End ListFacts.

(* ===================================================================== *)
(** * The matcher agrees with the language semantics                      *)
(* ===================================================================== *)

Module ReFacts.

Import Re.

Section Matching.

Variable ignorecase : bool.

Abbreviation Matches := (Matches ignorecase).
Abbreviation deriv := (deriv ignorecase).
Abbreviation fullmatch := (fullmatch ignorecase).
Abbreviation match_ := (match_ ignorecase).
Abbreviation search_chars := (search_chars ignorecase).
Abbreviation chr_matches := (chr_matches ignorecase).

Lemma nullable_spec r : nullable r = true <-> Matches r [].
Proof.
  induction r as [| | c | | r1 IH1 r2 IH2 | r1 IH1 r2 IH2 | r1 IH1];
    simpl; split; intros H;
    try discriminate; try solve [inversion H]; try solve [constructor].
  - apply andb_true_iff in H as [H1 H2].
    change (@nil ascii) with (@nil ascii ++ []). constructor; tauto.
  - inversion H as [| | | ? ? w1 w2 M1 M2 E1 E2 | | | |]; subst.
    apply app_eq_nil in E2 as [-> ->].
    apply andb_true_iff; tauto.
  - apply orb_true_iff in H as [H | H]; [apply MAltL | apply MAltR]; tauto.
  - apply orb_true_iff. inversion H; subst; tauto.
Qed.

Lemma star_cons_inv r a w :
  Matches (Star r) (a :: w) ->
  exists w1 w2, w = w1 ++ w2 /\ Matches r (a :: w1) /\ Matches (Star r) w2.
Proof.
  intros H. remember (Star r) as sr eqn:Esr. remember (a :: w) as aw eqn:Eaw.
  revert w Eaw.
  induction H as [| | | | | | | r' w1 w2 H1 _ H2 IH2]; intros w0 Eaw;
    try discriminate.
  injection Esr as ->.
  destruct w1 as [| b w1]; simpl in Eaw.
  - apply IH2; auto.
  - injection Eaw as -> <-. exists w1, w2. auto.
Qed.

Lemma deriv_spec a r : forall w, Matches (deriv a r) w <-> Matches r (a :: w).
Proof.
  induction r as [| | c | | r1 IH1 r2 IH2 | r1 IH1 r2 IH2 | r1 IH1];
    intros w; simpl.
  - split; intros H; inversion H.
  - split; intros H; inversion H.
  - destruct (chr_matches c a) eqn:E; split; intros H.
    + inversion H; subst. constructor; assumption.
    + inversion H; subst. constructor.
    + inversion H.
    + inversion H; subst. congruence.
  - destruct (is_space a) eqn:E; split; intros H.
    + inversion H; subst. constructor; assumption.
    + inversion H; subst. constructor.
    + inversion H.
    + inversion H; subst. congruence.
  - assert (Hcat : forall v, Matches (Cat (deriv a r1) r2) v ->
                             Matches (Cat r1 r2) (a :: v)).
    { intros v H. inversion H as [| | | ? ? w1 w2 M1 M2 | | | |]; subst.
      change (a :: w1 ++ w2) with ((a :: w1) ++ w2).
      constructor; [apply IH1|]; assumption. }
    assert (Hinv : Matches (Cat r1 r2) (a :: w) ->
                   Matches (Cat (deriv a r1) r2) w \/
                   (Matches r1 [] /\ Matches r2 (a :: w))).
    { intros H. inversion H as [| | | ? ? w1 w2 M1 M2 E1 E2 | | | |]; subst.
      destruct w1 as [| b w1]; simpl in *.
      - right. subst. auto.
      - injection E2 as -> <-. left. constructor; [apply IH1|]; assumption. }
    destruct (nullable r1) eqn:N; split; intros H.
    + inversion H; subst; [apply Hcat; assumption|].
      change (a :: w) with ([] ++ a :: w).
      constructor; [apply nullable_spec | apply IH2]; assumption.
    + destruct (Hinv H) as [H' | [_ H']];
        [apply MAltL | apply MAltR; apply IH2]; assumption.
    + apply Hcat; assumption.
    + destruct (Hinv H) as [H' | [H' _]]; [assumption|].
      apply nullable_spec in H'. congruence.
  - split; intros H; inversion H; subst;
      solve [apply MAltL; apply IH1; assumption
            |apply MAltR; apply IH2; assumption].
  - split; intros H.
    + inversion H as [| | | ? ? w1 w2 M1 M2 | | | |]; subst.
      change (a :: w1 ++ w2) with ((a :: w1) ++ w2).
      constructor; [apply IH1|]; assumption.
    + apply star_cons_inv in H as (w1 & w2 & -> & M1 & M2).
      constructor; [apply IH1|]; assumption.
Qed.

Lemma fullmatch_spec w : forall r, fullmatch r w = true <-> Matches r w.
Proof.
  induction w as [| a w IH]; intros r; simpl.
  - apply nullable_spec.
  - rewrite IH. apply deriv_spec.
Qed.

Lemma match_spec w :
  forall r, match_ r w = true <-> exists p v, w = p ++ v /\ Matches r p.
Proof.
  induction w as [| a w IH]; intros r; simpl.
  - rewrite orb_false_r, nullable_spec. split.
    + intros H. exists [], []. auto.
    + intros (p & v & E & H). symmetry in E.
      apply app_eq_nil in E as [-> _]. assumption.
  - rewrite orb_true_iff, IH, nullable_spec. split.
    + intros [H | (p & v & -> & H)].
      * exists [], (a :: w). auto.
      * exists (a :: p), v. split; [reflexivity | apply deriv_spec; assumption].
    + intros (p & v & E & H). destruct p as [| b p]; [left; assumption|].
      simpl in E. injection E as <- ->. right.
      exists p, v. split; [reflexivity | apply deriv_spec; assumption].
Qed.

Lemma search_chars_spec r w :
  search_chars r w = true <->
  exists u p v, w = u ++ p ++ v /\ Matches r p.
Proof.
  induction w as [| a w IH]; cbn [search_chars].
  - rewrite orb_false_r, match_spec. split.
    + intros (p & v & E & H). exists [], p, v. auto.
    + intros (u & p & v & E & H). symmetry in E.
      apply app_eq_nil in E as [-> E]. exists p, v. auto.
  - rewrite orb_true_iff, IH, match_spec. split.
    + intros [(p & v & E & H) | (u & p & v & -> & H)].
      * exists [], p, v. auto.
      * exists (a :: u), p, v. auto.
    + intros (u & p & v & E & H). destruct u as [| b u].
      * left. exists p, v. auto.
      * simpl in E. injection E as <- ->. right. exists u, p, v. auto.
Qed.

(** [p1|p2] is found exactly when one of the alternatives is. *)
Lemma search_chars_alt r1 r2 w :
  search_chars (Alt r1 r2) w = search_chars r1 w || search_chars r2 w.
Proof.
  apply eq_true_iff_eq.
  rewrite orb_true_iff, !search_chars_spec. split.
  - intros (u & p & v & E & H).
    inversion H; subst; [left | right]; exists u, p, v; auto.
  - intros [(u & p & v & E & H) | (u & p & v & E & H)];
      exists u, p, v; split; auto; [apply MAltL | apply MAltR]; assumption.
Qed.

End Matching.


End ReFacts.

(* ===================================================================== *)
(** * Facts about the cleaning script                                    *)
(* ===================================================================== *)

Module CleanFacts.

Import Re CleanData ListFacts.

Lemma getitem_list_rows names df df1 :
  getitem_list names df = Some df1 ->
  columns df1 = names /\
  rows df1 =
    map (fun r => (fst r, map (fun n => cell_of (columns df) n (snd r)) names))
        (rows df).
Proof.
  unfold getitem_list. intros H.
  destruct (traverse _ names) as [idxs|] eqn:E; simpl in H; [| discriminate].
  injection H as <-. split; [reflexivity|]. simpl.
  apply map_ext. intros r. f_equal.
  apply (traverse_map _ (fun j => nth j (snd r) NA) NA) in E.
  rewrite E. reflexivity.
Qed.

Section Spec.

Variable parse_number : string -> option Q.
Variable number_str : Q -> string.

Abbreviation clean := (clean parse_number number_str).
Abbreviation to_numeric := (to_numeric parse_number).
Abbreviation not_us := (not_us number_str).

(** The rows written, as successive selections from the five columns. *)
Lemma clean_rows df out :
  clean df = Some out ->
  exists df1,
    getitem_list kept_columns (rename renaming df) = Some df1 /\
    columns out = kept_columns ++ [" deaths"] /\
    rows out =
      filter (fun r => no_na (snd r))
        (map (fun r => (fst r, snd r ++ [to_numeric (nth 4 (snd r) NA)]))
          (filter (fun r => na_false
                    (str_contains (lit "opioid") (nth 3 (snd r) NA)))
            (filter (fun r => negb (isin ["number of deaths"]
                                      (str_lower (nth 3 (snd r) NA))))
              (filter (fun r => not_us (nth 0 (snd r) NA))
                 (filter (fun r => no_na (snd r)) (rows df1)))))).
Proof.
  unfold CleanData.clean.
  destruct (getitem_list kept_columns (rename renaming df)) as [df1|] eqn:E1;
    [| discriminate].
  assert (Hc : columns df1 = kept_columns)
    by (apply getitem_list_rows in E1; tauto).
  destruct df1 as [cols rws]. simpl in Hc. subst cols.
  cbn -[filter no_na lit].
  intros H. injection H as <-.
  exists (mkFrame kept_columns rws). split; [reflexivity|].
  split; [reflexivity|].
  unfold dropna; cbn [rows columns].
  rewrite (map_map (fun r : nat * list cell => nth 0 (snd r) NA) not_us).
  rewrite mask_filter.
  rewrite (map_map (fun r : nat * list cell => nth 3 (snd r) NA)
             (fun c => negb (isin ["number of deaths"] (str_lower c)))).
  rewrite mask_filter.
  rewrite (map_map (fun r : nat * list cell => nth 3 (snd r) NA)
             (fun c => na_false (str_contains (lit "opioid") c))).
  rewrite mask_filter.
  rewrite (map_map (fun r : nat * list cell => nth 4 (snd r) NA) to_numeric).
  rewrite combine_map_self, map_map. reflexivity.
Qed.

(** Every row written comes from an input line that passed each test. *)
Lemma clean_row_inv header lines out i r :
  clean (read_csv header lines) = Some out ->
  In (i, r) (rows out) ->
  exists l,
    nth_error lines i = Some l /\
    r = [cell_of (renamed header) "state" l;
         cell_of (renamed header) "year" l;
         cell_of (renamed header) "month" l;
         cell_of (renamed header) "drug_type" l;
         cell_of (renamed header) "deaths" l;
         to_numeric (cell_of (renamed header) "deaths" l)] /\
    no_na r = true /\
    not_us (cell_of (renamed header) "state" l) = true /\
    isin ["number of deaths"]
         (str_lower (cell_of (renamed header) "drug_type" l)) = false /\
    na_false (str_contains (lit "opioid")
                (cell_of (renamed header) "drug_type" l)) = true.
Proof.
  intros Hc Hin.
  apply clean_rows in Hc as (df1 & H1 & _ & Hrows).
  apply getitem_list_rows in H1 as [_ H1].
  rewrite Hrows, H1 in Hin. clear Hrows H1.
  apply filter_In in Hin as [Hin Hna]. cbn [snd] in Hna.
  apply in_map_iff in Hin as (r5 & E & Hin).
  repeat (apply filter_In in Hin as [Hin ?]).
  apply in_map_iff in Hin as ([j l] & E5 & Hin).
  cbn [rename rows read_csv] in Hin.
  apply In_combine_seq in Hin as [_ Hin]. rewrite Nat.sub_0_r in Hin.
  subst r5. cbn [fst snd] in *. injection E as <- <-.
  exists l. split; [assumption|].
  cbn [map kept_columns nth app] in *.
  repeat split; try assumption.
  destruct (isin _ _); [discriminate | reflexivity].
Qed.

End Spec.

End CleanFacts.


(* ===================================================================== *)
(** * Literal patterns and substrings                                    *)
(* ===================================================================== *)

Module LiteralFacts.

Import Re ReFacts Notions.

Lemma lit_prefix w : forall s,
  prefix_ci (list_ascii_of_string w) s = true ->
  exists p v, s = p ++ v /\ Matches true (lit w) p.
Proof.
  induction w as [| a w IH]; simpl; intros s H.
  - exists [], s. split; [reflexivity | constructor].
  - destruct s as [| b s]; [discriminate|].
    apply andb_true_iff in H as [Hab H].
    destruct (IH s H) as (p & v & -> & Hp).
    exists (b :: p), v. split; [reflexivity|].
    change (b :: p) with ([b] ++ p).
    constructor; [constructor; exact Hab | exact Hp].
Qed.

Lemma occurs_search w : forall s,
  occurs_ci (list_ascii_of_string w) s = true ->
  search_chars true (lit w) s = true.
Proof.
  induction s as [| b s IH]; cbn [occurs_ci search_chars]; intros H;
    apply orb_true_iff in H as [H | H]; apply orb_true_iff.
  - left. apply match_spec, lit_prefix, H.
  - discriminate.
  - left. apply match_spec, lit_prefix, H.
  - right. apply IH, H.
Qed.

(** A literal pattern is found wherever its text occurs. *)
Lemma contains_ci_search w s :
  contains_ci w s = true -> search true (lit w) s = true.
Proof. apply occurs_search. Qed.

(** The patterns on some region names: the spaced form is caught by the
    last pattern only, and plain state names pass. *)
Example is_us_examples :
  is_us "United  States" = true /\
  is_us "U.S." = true /\
  is_us "u s" = true /\
  search true CleanData.pat_us "u s" = false /\
  is_us "Massachusetts" = true /\
  is_us "Ohio" = false /\
  is_us "Texas" = false.
Proof. repeat split. Qed.

End LiteralFacts.

(* ===================================================================== *)
(** * Properties of the cleaning script                                  *)
(* ===================================================================== *)

Module CleanClaims.

Import Re ReFacts CleanData ListFacts CleanFacts Notions LiteralFacts.

(** Whatever the validation pattern finds, a cleaning pattern finds. *)
Lemma validation_subsumed s :
  search true validation_pattern s = true -> is_us s = true.
Proof.
  unfold is_us, us_patterns, validation_pattern, search.
  rewrite !ReFacts.search_chars_alt. cbn [existsb]. unfold search.
  intros H.
  repeat (apply orb_true_iff in H as [H | H]); rewrite H;
    rewrite ?orb_true_r; reflexivity.
Qed.

Section Script.

Variable parse_number : string -> option Q.
Variable number_str : Q -> string.

Abbreviation clean := (clean parse_number number_str).
Abbreviation script := (script parse_number number_str).
Abbreviation to_numeric := (to_numeric parse_number).
Abbreviation not_us := (not_us number_str).

Lemma clean_columns df out :
  clean df = Some out -> columns out = kept_columns ++ [" deaths"].
Proof. intros H. apply clean_rows in H as (df1 & _ & H & _). exact H. Qed.

Lemma to_numeric_cases c :
  to_numeric c = NA \/ exists q, to_numeric c = Num q.
Proof.
  destruct c as [| q | s]; simpl; [left | right; exists q | ]; try reflexivity.
  destruct (parse_number s) as [q|]; [right; exists q | left]; reflexivity.
Qed.

Lemma count_remaining_us_zero header lines out :
  clean (read_csv header lines) = Some out ->
  count_remaining_us out = Some 0%nat.
Proof.
  intros Hc. unfold count_remaining_us, getitem.
  rewrite (clean_columns _ Hc). cbn -[validation_pattern].
  f_equal. unfold sum_bool.
  rewrite filter_nil_forall; [reflexivity|].
  intros b Hb.
  apply in_map_iff in Hb as (c & <- & Hb).
  apply in_map_iff in Hb as ([i r] & <- & Hb).
  destruct (clean_row_inv _ _ _ _ _ _ Hc Hb) as (l & _ & -> & _ & Hus & _).
  cbn [snd nth].
  destruct (cell_of (renamed header) "state" l) as [| q | s];
    try reflexivity.
  cbn [str_contains na_false].
  destruct (search true validation_pattern s) eqn:E; [| reflexivity].
  apply validation_subsumed in E.
  unfold CleanData.not_us, py_str in Hus. fold (is_us s) in Hus.
  rewrite E in Hus. discriminate.
Qed.

Lemma not_us_text s : not_us (Str s) = negb (is_us s).
Proof. reflexivity. Qed.

(** An input line whose region name a cleaning pattern is found in is
    not written. *)
Lemma us_line_dropped header lines out i l s :
  clean (read_csv header lines) = Some out ->
  nth_error lines i = Some l ->
  cell_of (renamed header) "state" l = Str s ->
  is_us s = true ->
  ~ In i (index out).
Proof.
  intros Hc Hl Hs Hus Hin. unfold index in Hin.
  apply in_map_iff in Hin as ([j r] & Hj & Hin). simpl in Hj. subst j.
  destruct (clean_row_inv _ _ _ _ _ _ Hc Hin) as (l' & Hl' & _ & _ & Hn & _).
  rewrite Hl in Hl'. injection Hl' as <-.
  rewrite Hs, not_us_text, Hus in Hn. discriminate.
Qed.

(** C5. A record whose region name matches any pattern of [us_patterns]
    (case ignored) is left out of the cleaned output: the label of its
    input line is not among the labels written. In particular the
    record of Scenario 1, with state "United States", and a record with
    state "us" are left out: the file written for them has no line. *)
Theorem aggregate_regions_excluded :
  (forall header lines out i l s,
      clean (read_csv header lines) = Some out ->
      nth_error lines i = Some l ->
      cell_of (renamed header) "state" l = Str s ->
      is_us s = true ->
      ~ In i (index out)) /\
  option_map written_lines
    (script raw_header [line "United States" (Str "5000")]) = Some [] /\
  option_map written_lines
    (script raw_header [line "us" (Str "5000")]) = Some [].
Proof.
  split; [exact us_line_dropped|]. split; reflexivity.
Qed.

(** C8. Every input record whose region name contains "us" (case
    ignored) anywhere is left out by the cleaner, so the state of a
    cleaned record contains neither "us" nor "america"; "Massachusetts"
    is such a name, and a record for it is left out. The mask of the
    dashboard's [load_data] rejects such names as well. *)
Theorem us_substring_excluded :
  (forall header lines out i l s,
      clean (read_csv header lines) = Some out ->
      nth_error lines i = Some l ->
      cell_of (renamed header) "state" l = Str s ->
      contains_ci "us" s = true ->
      ~ In i (index out)) /\
  (forall header lines out i r s,
      clean (read_csv header lines) = Some out ->
      In (i, r) (rows out) ->
      cell_of (columns out) "state" r = Str s ->
      contains_ci "us" s = false /\ contains_ci "america" s = false) /\
  contains_ci "us" "Massachusetts" = true /\
  option_map written_lines
    (script raw_header [line "Massachusetts" (Str "50")]) = Some [] /\
  (forall x, contains_ci "us" x = true -> App.LoadData.us_mask x = false).
Proof.
  assert (Hus : forall s, contains_ci "us" s = true -> is_us s = true).
  { intros s H. apply contains_ci_search in H.
    unfold is_us, us_patterns. cbn [existsb]. unfold pat_us.
    rewrite H, orb_true_r. reflexivity. }
  assert (Ham : forall s, contains_ci "america" s = true -> is_us s = true).
  { intros s H. apply contains_ci_search in H.
    unfold is_us, us_patterns. cbn [existsb]. unfold pat_america.
    rewrite H, !orb_true_r. reflexivity. }
  split; [| split; [| split; [| split]]]; try reflexivity.
  - intros header lines out i l s Hc Hl Hs H.
    exact (us_line_dropped _ _ _ Hc Hl Hs (Hus s H)).
  - intros header lines out i r s Hc Hin Hs.
    rewrite (clean_columns _ Hc) in Hs.
    destruct (clean_row_inv _ _ _ _ _ _ Hc Hin) as (l & _ & -> & _ & Hn & _).
    cbn in Hs.
    rewrite Hs, not_us_text in Hn.
    apply negb_true_iff in Hn.
    split.
    + destruct (contains_ci "us" s) eqn:E; [| reflexivity].
      rewrite (Hus s E) in Hn. discriminate.
    + destruct (contains_ci "america" s) eqn:E; [| reflexivity].
      rewrite (Ham s E) in Hn. discriminate.
  - intros x H. apply negb_false_iff. exact (Hus x H).
Qed.

(** C9. The warning branch of the validation check is never taken: when
    the script runs to its report, the count of remaining rows whose
    state matches [united\s+states|us|u\.s\.|usa|america] is zero, since
    a cleaning pattern is found wherever the validation pattern is. *)
Theorem validation_warning_unreachable :
  (forall header lines report,
      script header lines = Some report ->
      remaining_us report = 0%nat /\ warning report = false) /\
  (forall s, search true validation_pattern s = true -> is_us s = true).
Proof.
  split; [| exact validation_subsumed].
  intros header lines report. unfold CleanData.script.
  destruct (CleanData.clean parse_number number_str (read_csv header lines))
    as [df|] eqn:Hc; [| discriminate].
  cbn [bind]. rewrite (count_remaining_us_zero _ _ Hc). cbn [bind].
  intros H. injection H as <-. split; reflexivity.
Qed.

(** C3, as the script has it. Every record of the cleaned output has a
    value under every column and its [deaths] value converts to a
    number; a record whose [deaths] value fails the conversion is not
    written. The sign of the number is not looked at. *)
Theorem cleaned_records_complete_numeric header lines out :
  clean (read_csv header lines) = Some out ->
  (forall i r, In (i, r) (rows out) ->
     List.length r = List.length (columns out) /\
     (forall name, In name (columns out) ->
        cell_of (columns out) name r <> NA) /\
     exists q, to_numeric (cell_of (columns out) "deaths" r) = Num q) /\
  (forall i l, nth_error lines i = Some l ->
     to_numeric (cell_of (renamed header) "deaths" l) = NA ->
     ~ In i (index out)).
Proof.
  intros Hc. split.
  - intros i r Hin. rewrite (clean_columns _ Hc).
    destruct (clean_row_inv _ _ _ _ _ _ Hc Hin) as (l & _ & -> & Hna & _).
    cbn in Hna.
    repeat (apply andb_true_iff in Hna as [? Hna]).
    split; [reflexivity|]. split.
    + intros name Hname. cbn in Hname.
      repeat (destruct Hname as [<- | Hname]); try contradiction; cbn;
        intros E; rewrite E in *; discriminate.
    + cbn.
      destruct (to_numeric_cases (cell_of (renamed header) "deaths" l))
        as [E | [q E]]; rewrite E in *; [discriminate|].
      exists q. reflexivity.
  - intros i l Hl Hnum Hin. unfold index in Hin.
    apply in_map_iff in Hin as ([j r] & Hj & Hin). simpl in Hj. subst j.
    destruct (clean_row_inv _ _ _ _ _ _ Hc Hin)
      as (l' & Hl' & -> & Hna & _).
    rewrite Hl in Hl'. injection Hl' as <-.
    rewrite Hnum in Hna. cbn in Hna.
    rewrite !andb_false_r in Hna. discriminate.
Qed.

(** The file written has six columns, whatever the input. *)
Lemma csv_header header lines report :
  script header lines = Some report ->
  fst (csv report) = kept_columns ++ [" deaths"].
Proof.
  unfold CleanData.script.
  destruct (CleanData.clean parse_number number_str (read_csv header lines))
    as [df|] eqn:Hc; [| discriminate].
  cbn [bind]. rewrite (count_remaining_us_zero _ _ Hc). cbn [bind].
  intros H. injection H as <-. exact (clean_columns _ Hc).
Qed.

End Script.

Lemma aggregate_regions_excluded_witness :
  CleanData.clean parse_integer show_number (read_csv raw_header sample_lines)
    = Some sample_cleaned /\
  nth_error sample_lines 1 = Some (line "United States" (Str "5000")) /\
  cell_of (renamed raw_header) "state" (line "United States" (Str "5000"))
    = Str "United States" /\
  is_us "United States" = true /\
  ~ In 1%nat (index sample_cleaned).
Proof.
  repeat split.
  apply (proj1 (aggregate_regions_excluded parse_integer show_number)
           raw_header sample_lines sample_cleaned 1%nat
           (line "United States" (Str "5000")) "United States");
    reflexivity.
Defined.

Lemma us_substring_excluded_witness :
  CleanData.clean parse_integer show_number (read_csv raw_header sample_lines)
    = Some sample_cleaned /\
  nth_error sample_lines 3 = Some (line "Massachusetts" (Str "50")) /\
  cell_of (renamed raw_header) "state" (line "Massachusetts" (Str "50"))
    = Str "Massachusetts" /\
  contains_ci "us" "Massachusetts" = true /\
  ~ In 3%nat (index sample_cleaned).
Proof.
  repeat split.
  apply (proj1 (us_substring_excluded parse_integer show_number)
           raw_header sample_lines sample_cleaned 3%nat
           (line "Massachusetts" (Str "50")) "Massachusetts");
    reflexivity.
Defined.

Lemma validation_warning_unreachable_witness :
  CleanData.script parse_integer show_number raw_header sample_lines
    = Some sample_report /\
  remaining_us sample_report = 0%nat /\ warning sample_report = false.
Proof.
  split; [reflexivity|].
  apply (proj1 (validation_warning_unreachable parse_integer show_number)
           raw_header sample_lines sample_report).
  reflexivity.
Defined.

Lemma cleaned_records_complete_numeric_witness :
  CleanData.clean parse_integer show_number (read_csv raw_header sample_lines)
    = Some sample_cleaned /\
  (forall i r, In (i, r) (rows sample_cleaned) ->
     List.length r = List.length (columns sample_cleaned) /\
     (forall name, In name (columns sample_cleaned) ->
        cell_of (columns sample_cleaned) name r <> NA) /\
     exists q,
       CleanData.to_numeric parse_integer
         (cell_of (columns sample_cleaned) "deaths" r) = Num q) /\
  (forall i l, nth_error sample_lines i = Some l ->
     CleanData.to_numeric parse_integer
       (cell_of (renamed raw_header) "deaths" l) = NA ->
     ~ In i (index sample_cleaned)).
Proof.
  split; [reflexivity|].
  apply (cleaned_records_complete_numeric parse_integer show_number
           raw_header sample_lines (out := sample_cleaned)).
  reflexivity.
Defined.

(** C3 as stated fails: the record Ohio, 2020, January, Opioids, -5 is
    written, so the [deaths] values written are not all non-negative. *)
Lemma negative_deaths_written :
  CleanData.clean parse_integer show_number
    (read_csv raw_header [line "Ohio" (Num (-5))])
  = Some (mkFrame
            [ "state"; "year"; "month"; "drug_type"; "deaths"; " deaths" ]
            [ (0%nat, [ Str "Ohio"; Num 2020; Str "January"; Str "Opioids";
                        Num (-5); Num (-5) ]) ]) /\
  ~ (forall out i r,
       CleanData.clean parse_integer show_number
         (read_csv raw_header [line "Ohio" (Num (-5))]) = Some out ->
       In (i, r) (rows out) ->
       exists q,
         CleanData.to_numeric parse_integer
           (cell_of (columns out) "deaths" r) = Num q /\ 0 <= q).
Proof.
  split; [reflexivity|].
  intros H.
  destruct (H _ 0%nat _ eq_refl (or_introl eq_refl)) as (q & E & Hq).
  cbn in E. injection E as <-.
  apply Qle_bool_iff in Hq. discriminate.
Qed.

(** C2 at an input of one record: the file written has six columns,
    the five of the schema and the column [" deaths"] that the
    conversion of line 50 adds under a name with a leading space. *)
Theorem csv_has_six_columns :
  option_map csv (run [line "Ohio" (Str "12")])
  = Some ([ "state"; "year"; "month"; "drug_type"; "deaths"; " deaths" ],
          [ [Str "Ohio"; Num 2020; Str "January"; Str "Opioids"; Str "12";
             Num 12] ]).
Proof. reflexivity. Qed.

End CleanClaims.

(* ===================================================================== *)
(** * Facts about group-by sums                                          *)
(* ===================================================================== *)

Module GroupFacts.

Import App Notions ListFacts.

#[export] Instance CompareLaws_Z : CompareLaws Z.
Proof.
  split; unfold cmp, Compare_Z.
  - apply Z.compare_eq.
  - apply Z.compare_refl.
  - intros x y. apply Z.compare_antisym.
  - intros x y z. rewrite !Z.compare_lt_iff. lia.
Qed.

#[export] Instance CompareLaws_Month : CompareLaws Month.
Proof.
  split; unfold cmp, Compare_Month.
  - intros x y E. apply Z.compare_eq in E.
    destruct x, y; solve [reflexivity | discriminate E].
  - intros x. apply Z.compare_refl.
  - intros x y. apply Z.compare_antisym.
  - intros x y z. rewrite !Z.compare_lt_iff. lia.
Qed.

#[export] Instance CompareLaws_string : CompareLaws string.
Proof.
  assert (Hirr : forall x, String_as_OT.compare x x = Lt -> False)
    by (intros x; apply (StrictOrder_Irreflexive (R := String_as_OT.lt))).
  assert (Htr : forall x y z, String_as_OT.compare x y = Lt ->
                  String_as_OT.compare y z = Lt ->
                  String_as_OT.compare x z = Lt)
    by (intros x y z; apply (StrictOrder_Transitive (R := String_as_OT.lt))).
  split; unfold cmp, Compare_string.
  - intros x y E. destruct (String_as_OT.compare_spec x y); congruence.
  - intros x. destruct (String_as_OT.compare_spec x x) as [_ | H | H];
      [reflexivity | | ]; destruct (Hirr _ H).
  - intros x y.
    destruct (String_as_OT.compare_spec x y) as [-> | H | H];
      destruct (String_as_OT.compare_spec y y) as [_ | H' | H'];
      try solve [destruct (Hirr _ H')]; try reflexivity;
      destruct (String_as_OT.compare_spec y x) as [-> | H1 | H1];
      try reflexivity;
      solve [destruct (Hirr _ H) | destruct (Hirr _ (Htr _ _ _ H H1))].
  - exact Htr.
Qed.

#[export] Instance CompareLaws_prod {A B : Type}
  `{CompareLaws A} `{CompareLaws B} : CompareLaws (A * B).
Proof.
  split; unfold cmp, Compare_prod.
  - intros [a b] [a' b']; simpl. destruct (cmp a a') eqn:E; try discriminate.
    intros E'. apply cmp_eq in E, E'. congruence.
  - intros [a b]; simpl. rewrite !cmp_refl. reflexivity.
  - intros [a b] [a' b']; simpl. rewrite (cmp_antisym a a').
    destruct (cmp a a'); simpl; try reflexivity. apply cmp_antisym.
  - intros [a b] [a' b'] [a'' b'']; simpl.
    destruct (cmp a a') eqn:E1; try discriminate;
      destruct (cmp a' a'') eqn:E2; try discriminate; intros Hb1 Hb2.
    + apply cmp_eq in E1, E2. subst. rewrite cmp_refl. eapply cmp_trans; eauto.
    + apply cmp_eq in E1. subst. rewrite E2. reflexivity.
    + apply cmp_eq in E2. subst. rewrite E1. reflexivity.
    + rewrite (cmp_trans _ _ _ E1 E2). reflexivity.
Qed.

(** ** Sums *)

Lemma fold_left_Qplus (l : list Q) : forall a,
  fold_left Qplus l a == a + fold_left Qplus l 0.
Proof.
  induction l as [| x l IH]; simpl; intros a.
  - ring.
  - rewrite (IH (a + x)), (IH (0 + x)). ring.
Qed.

Lemma sum_cons x l : sum (x :: l) == x + sum l.
Proof. unfold sum. simpl. rewrite fold_left_Qplus. ring. Qed.

Lemma sum_permutation l l' : Permutation l l' -> sum l == sum l'.
Proof.
  induction 1 as [| x l l' _ IH | x y l | l l' l'' _ IH1 _ IH2].
  - reflexivity.
  - rewrite !sum_cons, IH. reflexivity.
  - rewrite !sum_cons. ring.
  - rewrite IH1. exact IH2.
Qed.

(** ** Sorted keys *)

Section Keys.

Context {K : Type} `{CompareLaws K}.

Variable key : Row -> option K.

Lemma key_lt_irrefl (x : K) : ~ key_lt x x.
Proof. unfold key_lt. rewrite cmp_refl. discriminate. Qed.

Lemma cmp_gt_lt (x y : K) : cmp x y = Gt -> key_lt y x.
Proof. unfold key_lt. intros E. rewrite cmp_antisym, E. reflexivity. Qed.

Lemma insert_key_In k ks x :
  In x (insert_key k ks) <-> x = k \/ In x ks.
Proof.
  induction ks as [| k' ks IH]; simpl.
  - intuition.
  - destruct (cmp k k') eqn:E; simpl.
    + apply cmp_eq in E. subst. intuition.
    + intuition.
    + rewrite IH. intuition.
Qed.

Lemma insert_key_sorted k ks :
  StronglySorted key_lt ks -> StronglySorted key_lt (insert_key k ks).
Proof.
  induction 1 as [| k' ks Hs IH Hall]; simpl.
  - repeat constructor.
  - destruct (cmp k k') eqn:E.
    + constructor; assumption.
    + constructor; [constructor; assumption|].
      constructor; [exact E|].
      eapply Forall_impl; [| exact Hall].
      intros x Hx. exact (cmp_trans _ _ _ E Hx).
    + constructor; [exact IH|].
      apply Forall_forall. intros x Hx.
      apply insert_key_In in Hx as [-> | Hx].
      * apply cmp_gt_lt, E.
      * rewrite Forall_forall in Hall. auto.
Qed.

Lemma group_keys_sorted df : StronglySorted key_lt (group_keys key df).
Proof.
  induction df as [| r df IH]; simpl; [constructor|].
  destruct (key r); [apply insert_key_sorted|]; exact IH.
Qed.

Lemma group_keys_In df k :
  In k (group_keys key df) <-> exists r, In r df /\ key r = Some k.
Proof.
  induction df as [| r df IH]; simpl.
  - split; [contradiction | intros (r & [] & _)].
  - destruct (key r) as [k'|] eqn:E.
    + rewrite insert_key_In, IH. split.
      * intros [-> | (r' & Hr' & E')]; [exists r | exists r']; auto.
      * intros (r' & [<- | Hr'] & E'); [left; congruence | right; eauto].
    + rewrite IH. split.
      * intros (r' & Hr' & E'). eauto.
      * intros (r' & [<- | Hr'] & E'); [congruence | eauto].
Qed.

(** A strictly sorted list is determined by its elements. *)
Lemma sorted_ext (l1 : list K) : forall l2,
  StronglySorted key_lt l1 -> StronglySorted key_lt l2 ->
  (forall x, In x l1 <-> In x l2) -> l1 = l2.
Proof.
  induction l1 as [| a l1 IH]; intros [| b l2] S1 S2 Hin.
  - reflexivity.
  - destruct (proj2 (Hin b) (or_introl eq_refl)).
  - destruct (proj1 (Hin a) (or_introl eq_refl)).
  - inversion S1 as [| ? ? S1' F1]; inversion S2 as [| ? ? S2' F2]; subst.
    rewrite Forall_forall in F1, F2.
    assert (a = b).
    { destruct (proj1 (Hin a) (or_introl eq_refl)) as [E | Ha]; [auto|].
      destruct (proj2 (Hin b) (or_introl eq_refl)) as [E | Hb]; [auto|].
      destruct (key_lt_irrefl (cmp_trans _ _ _ (F1 _ Hb) (F2 _ Ha))). }
    subst b. f_equal. apply IH; try assumption.
    intros x. split; intros Hx.
    + destruct (proj1 (Hin x) (or_intror Hx)) as [<- | Hx']; [| exact Hx'].
      destruct (key_lt_irrefl (F1 _ Hx)).
    + destruct (proj2 (Hin x) (or_intror Hx)) as [<- | Hx']; [| exact Hx'].
      destruct (key_lt_irrefl (F2 _ Hx)).
Qed.

Lemma group_keys_permutation df df' :
  Permutation df df' -> group_keys key df = group_keys key df'.
Proof.
  intros P. apply sorted_ext; try apply group_keys_sorted.
  intros k. rewrite !group_keys_In.
  split; intros (r & Hr & E); exists r; split; try assumption.
  - eapply Permutation_in; eassumption.
  - eapply Permutation_in; [apply Permutation_sym|]; eassumption.
Qed.

Lemma sum_groups_permutation ks df df' :
  Permutation df df' ->
  Forall2 same_group (sum_groups key ks df) (sum_groups key ks df').
Proof.
  intros P. unfold sum_groups.
  induction ks as [| k ks IH]; simpl; constructor.
  - split; [reflexivity|]. simpl.
    apply sum_permutation, Permutation_map, filter_permutation, P.
  - exact IH.
Qed.

(** The aggregate does not depend on the order of the rows. *)
Lemma groupby_sum_permutation df df' :
  Permutation df df' ->
  Forall2 same_group (groupby_sum key df) (groupby_sum key df').
Proof.
  intros P. unfold groupby_sum.
  rewrite <- (group_keys_permutation P).
  apply sum_groups_permutation, P.
Qed.

(** One row per key that occurs. *)
Lemma groupby_sum_keys df :
  NoDup (map fst (groupby_sum key df)) /\
  forall k, In k (map fst (groupby_sum key df)) <->
            exists r, In r df /\ key r = Some k.
Proof.
  unfold groupby_sum, sum_groups. rewrite map_map. cbn [fst]. rewrite map_id.
  split; [| intros k; apply group_keys_In].
  generalize (group_keys_sorted df).
  induction 1 as [| k ks Hs IH Hall]; constructor; [| exact IH].
  intros Hk. rewrite Forall_forall in Hall.
  exact (key_lt_irrefl (Hall _ Hk)).
Qed.

End Keys.

Lemma trend_keys_permutation observed df df' :
  Permutation df df' -> trend_keys observed df = trend_keys observed df'.
Proof.
  intros P. unfold trend_keys.
  rewrite (group_keys_permutation trend_key P).
  rewrite (group_keys_permutation (fun r => Some (year r)) P).
  rewrite (group_keys_permutation (fun r => Some (state r)) P).
  reflexivity.
Qed.

End GroupFacts.

(* ===================================================================== *)
(** * Facts about quantiles                                              *)
(* ===================================================================== *)

Module QuantileFacts.

Import App Notions.

Lemma Forall2_Qle_refl (l : list Q) : Forall2 Qle l l.
Proof. induction l; constructor; [apply Qle_refl | assumption]. Qed.

Lemma insert_sorted_length x l :
  List.length (insert_sorted x l) = S (List.length l).
Proof.
  induction l as [| y l IH]; simpl; [reflexivity|].
  destruct (Qle_bool x y); simpl; [| rewrite IH]; reflexivity.
Qed.

Lemma sort_length l : List.length (sort l) = List.length l.
Proof.
  induction l as [| x l IH]; simpl; [reflexivity|].
  rewrite insert_sorted_length, IH. reflexivity.
Qed.

Lemma Qle_bool_false x y : Qle_bool x y = false -> y <= x.
Proof.
  intros E. destruct (Qlt_le_dec y x) as [H | H]; [apply Qlt_le_weak, H|].
  apply Qle_bool_iff in H. congruence.
Qed.

Lemma insert_sorted_Forall (P : Q -> Prop) x l :
  P x -> Forall P l -> Forall P (insert_sorted x l).
Proof.
  intros Hx. induction 1 as [| y l Hy Hl IH]; simpl.
  - constructor; [assumption | constructor].
  - destruct (Qle_bool x y); repeat constructor; assumption.
Qed.

Lemma insert_sorted_sorted x l :
  StronglySorted Qle l -> StronglySorted Qle (insert_sorted x l).
Proof.
  induction 1 as [| y l Hs IH Hall]; simpl.
  - repeat constructor.
  - destruct (Qle_bool x y) eqn:E.
    + apply Qle_bool_iff in E.
      constructor; [constructor; assumption|].
      constructor; [exact E|].
      eapply Forall_impl; [| exact Hall].
      intros z Hz. eapply Qle_trans; eassumption.
    + constructor; [exact IH|].
      apply insert_sorted_Forall; [apply Qle_bool_false, E | exact Hall].
Qed.

Lemma sort_sorted l : StronglySorted Qle (sort l).
Proof.
  induction l; simpl; [constructor | apply insert_sorted_sorted; assumption].
Qed.

(** Inserting into the larger list only, or into the smaller list only. *)
Lemma insert_right_le t t' : Forall2 Qle t t' ->
  forall a x', StronglySorted Qle (a :: t) -> a <= x' ->
  Forall2 Qle (a :: t) (insert_sorted x' t').
Proof.
  induction 1 as [| b b' t t' Hb Ht IH]; intros a x' S Hax; simpl.
  - repeat constructor. exact Hax.
  - inversion S as [| ? ? S' F]; subst. inversion F as [| ? ? Hab _]; subst.
    destruct (Qle_bool x' b') eqn:E.
    + repeat constructor; assumption.
    + apply Qle_bool_false in E.
      constructor; [eapply Qle_trans; eassumption|].
      apply IH; [exact S' | eapply Qle_trans; eassumption].
Qed.

Lemma insert_left_le t t' : Forall2 Qle t t' ->
  forall a' x, StronglySorted Qle (a' :: t') -> x <= a' ->
  Forall2 Qle (insert_sorted x t) (a' :: t').
Proof.
  induction 1 as [| b b' t t' Hb Ht IH]; intros a' x S Hxa; simpl.
  - repeat constructor. exact Hxa.
  - inversion S as [| ? ? S' F]; subst. inversion F as [| ? ? Hab _]; subst.
    destruct (Qle_bool x b) eqn:E.
    + repeat constructor; assumption.
    + apply Qle_bool_false in E.
      constructor; [eapply Qle_trans; eassumption|].
      apply IH; [exact S' | eapply Qle_trans; eassumption].
Qed.

Lemma insert_sorted_le t t' : Forall2 Qle t t' ->
  forall x x', StronglySorted Qle t -> StronglySorted Qle t' -> x <= x' ->
  Forall2 Qle (insert_sorted x t) (insert_sorted x' t').
Proof.
  induction 1 as [| a a' t t' Ha Ht IH]; intros x x' S S' Hx; simpl.
  - repeat constructor. exact Hx.
  - destruct (Qle_bool x a) eqn:E; destruct (Qle_bool x' a') eqn:E'.
    + repeat constructor; assumption.
    + apply Qle_bool_iff in E. apply Qle_bool_false in E'.
      constructor; [eapply Qle_trans; eassumption|].
      apply insert_right_le; try assumption.
      eapply Qle_trans; eassumption.
    + apply Qle_bool_false in E. apply Qle_bool_iff in E'.
      constructor; [eapply Qle_trans; eassumption|].
      apply insert_left_le; try assumption.
      eapply Qle_trans; eassumption.
    + inversion S; inversion S'; subst.
      constructor; [exact Ha | apply IH; assumption].
Qed.

(** Sorting keeps a point-wise comparison. *)
Lemma sort_le l l' : Forall2 Qle l l' -> Forall2 Qle (sort l) (sort l').
Proof.
  induction 1 as [| x x' l l' Hx Hl IH]; simpl; [constructor|].
  apply insert_sorted_le; try apply sort_sorted; assumption.
Qed.

Lemma Forall2_nth_le l l' : Forall2 Qle l l' ->
  forall i, nth i l 0 <= nth i l' 0.
Proof.
  induction 1 as [| x x' l l' Hx Hl IH]; intros [| i]; simpl;
    auto using Qle_refl.
Qed.

Lemma interpolation_le a b a' b' g :
  a <= a' -> b <= b' -> 0 <= g -> g <= 1 ->
  a + (b - a) * g <= a' + (b' - a') * g.
Proof. intros. nra. Qed.

(** A quantile can only go up when values go up. *)
Lemma quantile_le q l l' :
  Forall2 Qle l l' -> opt_le (quantile q l) (quantile q l').
Proof.
  intros H. pose proof (sort_le H) as Hs.
  pose proof (Forall2_length H) as Hlen.
  destruct H as [| x x' l l' Hx Hl]; [exact I|].
  unfold quantile, opt_le.
  rewrite !sort_length, <- Hlen.
  set (pos := inject_Z (Z.of_nat (List.length (x :: l) - 1)) * q).
  apply interpolation_le; try (apply Forall2_nth_le; exact Hs).
  - pose proof (Qfloor_le pos). lra.
  - pose proof (Qlt_floor pos) as Hlt.
    rewrite inject_Z_plus in Hlt. change (inject_Z 1) with 1 in Hlt. lra.
Qed.

End QuantileFacts.

(* ===================================================================== *)
(** * Properties of the dashboard                                        *)
(* ===================================================================== *)

Module AppClaims.

Import App Notions ListFacts GroupFacts QuantileFacts.

Lemma isin_In x values : isin x values = true <-> In x values.
Proof.
  unfold isin. rewrite existsb_exists. split.
  - intros (y & Hy & E). apply String.eqb_eq in E. subst. exact Hy.
  - intros H. exists x. split; [exact H | apply String.eqb_refl].
Qed.

Lemma between_spec x lo hi :
  between x lo hi = true <-> (lo <= x <= hi)%Z.
Proof. unfold between. rewrite andb_true_iff, !Z.leb_le. tauto. Qed.

(** C6. The filter returns exactly the records whose state is among the
    selected states, whose year lies in the selected range, ends
    included, and whose drug type is among the selected drug types; it
    keeps them row by row, in order; with no state selected, or no drug
    type selected, it returns no row. *)
Theorem filtered_df_conjunction df c :
  (forall r,
      In r (filtered_df df c) <->
      In r df /\
      In (state r) (selected_states c) /\
      (fst (selected_years c) <= year r <= snd (selected_years c))%Z /\
      In (drug_type r) (selected_drugs c)) /\
  (forall df', filtered_df (df ++ df') c
               = filtered_df df c ++ filtered_df df' c) /\
  filtered_df df (mkCriteria [] (selected_years c) (selected_drugs c)) = [] /\
  filtered_df df (mkCriteria (selected_states c) (selected_years c) []) = [].
Proof.
  split; [| split; [| split]].
  - intros r. unfold filtered_df.
    rewrite filter_In, !andb_true_iff, !isin_In, between_spec. tauto.
  - intros df'. apply filter_app.
  - unfold filtered_df. apply filter_nil_forall. intros r _. reflexivity.
  - unfold filtered_df. apply filter_nil_forall. intros r _.
    cbn [selected_drugs isin existsb]. apply andb_false_r.
Qed.

(** C7. Aggregation by grouping keys with summed deaths does not depend
    on the order of the input rows: for every reordering the aggregator
    produces the same rows, key by key with equal sums; this holds for
    the trend aggregate, with either treatment of the month categories,
    and for the proportion aggregate. *)
Theorem aggregation_order_independent df df' :
  Permutation df df' ->
  (forall observed,
     Forall2 same_group (trend_df observed df) (trend_df observed df')) /\
  (forall c, Forall2 same_group (pie_df df c) (pie_df df' c)).
Proof.
  intros P. split.
  - intros observed. unfold trend_df.
    rewrite <- (trend_keys_permutation observed P).
    apply sum_groups_permutation, P.
  - intros c. apply groupby_sum_permutation, filter_permutation, P.
Qed.

Lemma aggregation_order_independent_witness :
  Permutation [texas March "Heroin" 100; texas March "Opioids" 50]
              [texas March "Opioids" 50; texas March "Heroin" 100] /\
  (forall observed,
     Forall2 same_group
       (trend_df observed
          [texas March "Heroin" 100; texas March "Opioids" 50])
       (trend_df observed
          [texas March "Opioids" 50; texas March "Heroin" 100])) /\
  (forall c,
     Forall2 same_group
       (pie_df [texas March "Heroin" 100; texas March "Opioids" 50] c)
       (pie_df [texas March "Opioids" 50; texas March "Heroin" 100] c)).
Proof.
  split; [apply perm_swap|].
  apply (@aggregation_order_independent
           [texas March "Heroin" 100; texas March "Opioids" 50]
           [texas March "Opioids" 50; texas March "Heroin" 100]).
  apply perm_swap.
Defined.

(** Scenario 4 of the specification, with the groups that occur. *)
Example trend_df_scenario :
  trend_df true [texas March "Heroin" 100; texas March "Opioids" 50]
  = [(2021%Z, March, "Texas", 0 + 100 + 50)].
Proof. reflexivity. Qed.

(** C10. The proportion chart's data are computed from the whole frame,
    restricted by the selected year range only: two selections with the
    same year range give the same aggregate, whatever their states and
    drug types. *)
Theorem pie_df_depends_on_years_only df c1 c2 :
  selected_years c1 = selected_years c2 ->
  pie_df df c1 = pie_df df c2.
Proof. intros E. unfold pie_df. rewrite E. reflexivity. Qed.

Lemma pie_df_depends_on_years_only_witness :
  selected_years (mkCriteria ["Ohio"] (2019, 2021)%Z ["Heroin"])
    = selected_years (mkCriteria [] (2019, 2021)%Z []) /\
  pie_df [ohio 10; texas March "Heroin" 100]
         (mkCriteria ["Ohio"] (2019, 2021)%Z ["Heroin"])
  = pie_df [ohio 10; texas March "Heroin" 100]
           (mkCriteria [] (2019, 2021)%Z []).
Proof.
  split; [reflexivity|].
  apply (@pie_df_depends_on_years_only
           [ohio 10; texas March "Heroin" 100]
           (mkCriteria ["Ohio"] (2019, 2021)%Z ["Heroin"])
           (mkCriteria [] (2019, 2021)%Z [])).
  reflexivity.
Defined.

(** ** Outliers *)

Lemma state_data_replace df : forall i v r s,
  nth_error df i = Some r -> deaths r <= v ->
  Forall2 Qle (map deaths (state_data df s))
              (map deaths (state_data (replace_deaths i v df) s)).
Proof.
  induction df as [| r0 df IH]; intros i v r s Hi Hv.
  - destruct i; discriminate.
  - destruct i as [| i]; simpl in *.
    + injection Hi as ->.
      destruct (String.eqb (state r) s); simpl.
      * constructor; [exact Hv | apply Forall2_Qle_refl].
      * apply Forall2_Qle_refl.
    + destruct (String.eqb (state r0) s); simpl.
      * constructor; [apply Qle_refl | eapply IH; eassumption].
      * eapply IH; eassumption.
Qed.

(** C4, as the detector has it. When one deaths value of a frame is
    replaced by a larger one, the first and the third quartile of every
    state group stay equal or grow, and the upper fence
    Q3 + 1.5 * (Q3 - Q1) stays equal or grows whenever the first
    quartile of the group is unchanged. *)
Theorem quartiles_monotone df i v r s :
  nth_error df i = Some r ->
  deaths r <= v ->
  opt_le (Q1 (state_data df s)) (Q1 (state_data (replace_deaths i v df) s)) /\
  opt_le (Q3 (state_data df s)) (Q3 (state_data (replace_deaths i v df) s)) /\
  (opt_eq (Q1 (state_data df s))
          (Q1 (state_data (replace_deaths i v df) s)) ->
   opt_le (upper_bound (state_data df s))
          (upper_bound (state_data (replace_deaths i v df) s))).
Proof.
  intros Hi Hv.
  pose proof (state_data_replace df i s Hi Hv) as H.
  pose proof (quantile_le (1 # 4) H) as H1.
  pose proof (quantile_le (3 # 4) H) as H3.
  fold (Q1 (state_data df s)) in H1.
  fold (Q1 (state_data (replace_deaths i v df) s)) in H1.
  fold (Q3 (state_data df s)) in H3.
  fold (Q3 (state_data (replace_deaths i v df) s)) in H3.
  split; [exact H1|]. split; [exact H3|].
  unfold upper_bound, IQR.
  destruct (Q1 (state_data df s)) as [a|],
           (Q1 (state_data (replace_deaths i v df) s)) as [a'|],
           (Q3 (state_data df s)) as [b|],
           (Q3 (state_data (replace_deaths i v df) s)) as [b'|];
    simpl in *; try tauto.
  intros E. lra.
Qed.

Lemma quartiles_monotone_witness :
  nth_error (map ohio [0; 0; 10; 10; 10]%Z) 4 = Some (ohio 10) /\
  deaths (ohio 10) <= 40 /\
  opt_le (Q1 (state_data (map ohio [0; 0; 10; 10; 10]%Z) "Ohio"))
         (Q1 (state_data
                (replace_deaths 4 40 (map ohio [0; 0; 10; 10; 10]%Z))
                "Ohio")) /\
  opt_le (Q3 (state_data (map ohio [0; 0; 10; 10; 10]%Z) "Ohio"))
         (Q3 (state_data
                (replace_deaths 4 40 (map ohio [0; 0; 10; 10; 10]%Z))
                "Ohio")) /\
  (opt_eq (Q1 (state_data (map ohio [0; 0; 10; 10; 10]%Z) "Ohio"))
          (Q1 (state_data
                 (replace_deaths 4 40 (map ohio [0; 0; 10; 10; 10]%Z))
                 "Ohio")) ->
   opt_le (upper_bound (state_data (map ohio [0; 0; 10; 10; 10]%Z) "Ohio"))
          (upper_bound
             (state_data
                (replace_deaths 4 40 (map ohio [0; 0; 10; 10; 10]%Z))
                "Ohio"))).
Proof.
  split; [reflexivity|]. split; [discriminate|].
  apply (@quartiles_monotone (map ohio [0; 0; 10; 10; 10]%Z) 4 40
           (ohio 10) "Ohio"); [reflexivity | discriminate].
Defined.

(** C4 as stated fails: in the group with deaths 0, 0, 10, 10, 10 the
    fence is 25; with the second value raised to 10 it is 10. *)
Lemma upper_bound_not_monotone :
  nth_error (map ohio [0; 0; 10; 10; 10]%Z) 1 = Some (ohio 0) /\
  deaths (ohio 0) <= 10 /\
  opt_eq (upper_bound (state_data (map ohio [0; 0; 10; 10; 10]%Z) "Ohio"))
         (Some 25) /\
  opt_eq (upper_bound
            (state_data
               (replace_deaths 1 10 (map ohio [0; 0; 10; 10; 10]%Z)) "Ohio"))
         (Some 10) /\
  ~ opt_le (upper_bound (state_data (map ohio [0; 0; 10; 10; 10]%Z) "Ohio"))
           (upper_bound
              (state_data
                 (replace_deaths 1 10 (map ohio [0; 0; 10; 10; 10]%Z))
                 "Ohio")).
Proof.
  split; [reflexivity|]. split; [discriminate|].
  split; [reflexivity|]. split; [reflexivity|].
  intros H. vm_compute in H. apply H. reflexivity.
Qed.

Lemma state_data_same_state s rows : forall n,
  map state rows = repeat s n -> state_data rows s = rows.
Proof.
  induction rows as [| r rows IH]; intros [| n] H; try discriminate;
    [reflexivity|].
  simpl in H. injection H as Hs H. simpl.
  rewrite Hs, String.eqb_refl, (IH n H). reflexivity.
Qed.

Lemma unique_from_seen s seen n :
  existsb (String.eqb s) seen = true -> unique_from seen (repeat s n) = [].
Proof.
  intros H. induction n as [| n IH]; simpl; [reflexivity|].
  rewrite H. exact IH.
Qed.

Lemma unique_repeat s n : unique (repeat s (S n)) = [s].
Proof.
  unfold unique. simpl. rewrite unique_from_seen; [reflexivity|].
  simpl. rewrite String.eqb_refl. reflexivity.
Qed.

(** C1, as the detector computes it. For six rows of one state with
    deaths 10, 12, 11, 13, 12, 90 the detector has Q1 = 11.25,
    Q3 = 12.75, IQR = 1.5 and upper fence 15, and it flags the row with
    deaths 90 and no other row. *)
Theorem single_state_scenario rows s :
  map state rows = repeat s 6 ->
  map deaths rows = [10; 12; 11; 13; 12; 90] ->
  opt_eq (Q1 (state_data rows s)) (Some (45 # 4)) /\
  opt_eq (Q3 (state_data rows s)) (Some (51 # 4)) /\
  opt_eq (IQR (state_data rows s)) (Some (3 # 2)) /\
  opt_eq (upper_bound (state_data rows s)) (Some 15) /\
  outliers rows = skipn 5 rows /\
  map deaths (outliers rows) = [90].
Proof.
  intros Hs Hd.
  assert (Ho : outliers rows = state_outliers rows).
  { unfold outliers. rewrite Hs, unique_repeat. simpl.
    rewrite (@state_data_same_state s rows 6 Hs). apply app_nil_r. }
  rewrite Ho, (@state_data_same_state s rows 6 Hs).
  unfold state_outliers, upper_bound, IQR, Q3, Q1. rewrite Hd.
  destruct rows as [| r1 [| r2 [| r3 [| r4 [| r5 [| r6 [| r7 rows]]]]]]];
    try discriminate.
  injection Hd as H1 H2 H3 H4 H5 H6.
  cbn [filter]. rewrite H1, H2, H3, H4, H5, H6.
  repeat split; try reflexivity.
  match goal with |- map deaths ?l = _ => change l with [r6] end.
  cbn [map]. rewrite H6. reflexivity.
Qed.

Lemma single_state_scenario_witness :
  map state (map ohio [10; 12; 11; 13; 12; 90]%Z) = repeat "Ohio" 6 /\
  map deaths (map ohio [10; 12; 11; 13; 12; 90]%Z)
    = [10; 12; 11; 13; 12; 90] /\
  opt_eq (Q1 (state_data (map ohio [10; 12; 11; 13; 12; 90]%Z) "Ohio"))
         (Some (45 # 4)) /\
  opt_eq (Q3 (state_data (map ohio [10; 12; 11; 13; 12; 90]%Z) "Ohio"))
         (Some (51 # 4)) /\
  opt_eq (IQR (state_data (map ohio [10; 12; 11; 13; 12; 90]%Z) "Ohio"))
         (Some (3 # 2)) /\
  opt_eq (upper_bound
            (state_data (map ohio [10; 12; 11; 13; 12; 90]%Z) "Ohio"))
         (Some 15) /\
  outliers (map ohio [10; 12; 11; 13; 12; 90]%Z)
    = skipn 5 (map ohio [10; 12; 11; 13; 12; 90]%Z) /\
  map deaths (outliers (map ohio [10; 12; 11; 13; 12; 90]%Z)) = [90].
Proof.
  split; [reflexivity|]. split; [reflexivity|].
  apply (@single_state_scenario
           (map ohio [10; 12; 11; 13; 12; 90]%Z) "Ohio");
    reflexivity.
Defined.

(** C1 as stated fails: for these six rows the first quartile is not 11,
    the interquartile range is not 1.75 and the fence is not 15.375. *)
Lemma scenario_quartiles_refuted :
  ~ (opt_eq (Q1 (state_data (map ohio [10; 12; 11; 13; 12; 90]%Z) "Ohio"))
            (Some 11) /\
     opt_eq (Q3 (state_data (map ohio [10; 12; 11; 13; 12; 90]%Z) "Ohio"))
            (Some (51 # 4)) /\
     opt_eq (IQR (state_data (map ohio [10; 12; 11; 13; 12; 90]%Z) "Ohio"))
            (Some (7 # 4)) /\
     opt_eq (upper_bound
               (state_data (map ohio [10; 12; 11; 13; 12; 90]%Z) "Ohio"))
            (Some (123 # 8)) /\
     map deaths (outliers (map ohio [10; 12; 11; 13; 12; 90]%Z)) = [90]).
Proof.
  intros (H1 & _ & H2 & H3 & _).
  vm_compute in H1. discriminate H1.
Qed.

End AppClaims.

(* ===================================================================== *)
(** * More on patterns: letter case, factors, literals                   *)
(* ===================================================================== *)

Module PatternFacts.

Import Re ReFacts Notions LiteralFacts.

Lemma lower_lower a : lower (lower a) = lower a.
Proof. destruct a as [[] [] [] [] [] [] [] []]; reflexivity. Qed.

Lemma is_space_lower a : is_space (lower a) = is_space a.
Proof. destruct a as [[] [] [] [] [] [] [] []]; reflexivity. Qed.

Lemma deriv_lower a r : deriv true (lower a) r = deriv true a r.
Proof.
  induction r as [| | c | | r1 IH1 r2 IH2 | r1 IH1 r2 IH2 | r1 IH1]; simpl;
    try reflexivity.
  - unfold chr_matches. rewrite lower_lower. reflexivity.
  - rewrite is_space_lower. reflexivity.
  - rewrite IH1, IH2. reflexivity.
  - rewrite IH1, IH2. reflexivity.
  - rewrite IH1. reflexivity.
Qed.

Lemma match_lower w : forall r,
  match_ true r (map lower w) = match_ true r w.
Proof.
  induction w as [| a w IH]; intros r; simpl; [reflexivity|].
  rewrite deriv_lower, IH. reflexivity.
Qed.

Lemma search_chars_lower r w :
  search_chars true r (map lower w) = search_chars true r w.
Proof.
  induction w as [| a w IH]; cbn [search_chars map].
  - reflexivity.
  - rewrite IH. f_equal. apply (match_lower (a :: w)).
Qed.

Lemma chars_lower_string s :
  list_ascii_of_string (lower_string s) = map lower (list_ascii_of_string s).
Proof. induction s as [| a s IH]; simpl; [| rewrite IH]; reflexivity. Qed.

(** With [re.IGNORECASE] a search sees the text up to letter case. *)
Lemma search_lower r s : search true r (lower_string s) = search true r s.
Proof. unfold search. rewrite chars_lower_string. apply search_chars_lower. Qed.

(** A pattern found in a part of a text is found in the text. *)
Lemma search_chars_factor ic r u w v :
  search_chars ic r w = true -> search_chars ic r (u ++ w ++ v) = true.
Proof.
  rewrite !search_chars_spec. intros (u' & p & v' & -> & H).
  exists (u ++ u'), p, (v' ++ v). split; [| exact H].
  rewrite <- !app_assoc. reflexivity.
Qed.

Lemma prefix_ci_app w p v :
  Matches true (lit w) p -> prefix_ci (list_ascii_of_string w) (p ++ v) = true.
Proof.
  revert p. induction w as [| a w IH]; simpl; intros p H; [reflexivity|].
  inversion H as [| | | ? ? p1 p2 H1 H2 | | | |]; subst.
  inversion H1 as [| ? x Hx | | | | | |]; subst. simpl.
  unfold chr_matches in Hx. rewrite Hx. simpl. apply IH, H2.
Qed.

Lemma occurs_ci_app p u : forall w,
  prefix_ci p w = true -> occurs_ci p (u ++ w) = true.
Proof.
  induction u as [| b u IH]; intros w H; simpl.
  - destruct w; simpl in *; rewrite H; reflexivity.
  - rewrite (IH w H). apply orb_true_r.
Qed.

(** A literal pattern is found only where its text occurs. *)
Lemma search_contains_ci w s :
  search true (lit w) s = true -> contains_ci w s = true.
Proof.
  unfold search, contains_ci. rewrite search_chars_spec.
  intros (u & p & v & -> & H).
  apply occurs_ci_app, prefix_ci_app, H.
Qed.

Lemma search_lit_iff w s :
  search true (lit w) s = contains_ci w s.
Proof.
  apply eq_true_iff_eq. split;
    [apply search_contains_ci | apply contains_ci_search].
Qed.

End PatternFacts.

(* ===================================================================== *)
(** * More properties of the cleaning script                             *)
(* ===================================================================== *)

Module CleanMore.

Import Re ReFacts CleanData ListFacts CleanFacts Notions LiteralFacts.
Import PatternFacts MoreNotions CleanClaims.

Lemma filter_filter_and {A : Type} (f g : A -> bool) (l : list A) :
  filter f (filter g l) = filter (fun x => g x && f x) l.
Proof.
  induction l as [| a l IH]; simpl; [reflexivity|].
  destruct (g a); simpl; [destruct (f a)|]; rewrite IH; reflexivity.
Qed.

Lemma filter_snd_combine {A B : Type} (f : B -> bool) :
  forall (l : list B) (ks : list A), List.length ks = List.length l ->
  map snd (filter (fun kb => f (snd kb)) (combine ks l)) = filter f l.
Proof.
  induction l as [| b l IH]; intros [| k ks] E; try discriminate;
    [reflexivity|].
  simpl. destruct (f b); simpl; rewrite IH by (simpl in E; lia); reflexivity.
Qed.




Lemma existsb_ext {A : Type} (f g : A -> bool) (l : list A) :
  (forall x, f x = g x) -> existsb f l = existsb g l.
Proof.
  intros H. induction l as [| a l IH]; simpl; [| rewrite H, IH]; reflexivity.
Qed.

(** Letter case does not matter to the US patterns. *)
Lemma is_us_lower s : is_us (lower_string s) = is_us s.
Proof. unfold is_us. apply existsb_ext. intros p. apply search_lower. Qed.

Lemma contains_ci_lower w s :
  contains_ci w (lower_string s) = contains_ci w s.
Proof. rewrite <- !search_lit_iff. apply search_lower. Qed.

Lemma occurs_usa_us : forall w,
  occurs_ci (list_ascii_of_string "usa") w = true ->
  occurs_ci (list_ascii_of_string "us") w = true.
Proof.
  induction w as [| a w IH]; cbn [occurs_ci]; intros H;
    apply orb_true_iff in H as [H | H]; try discriminate.
  - apply orb_true_iff. left.
    destruct w as [| b [| c w]]; simpl in *;
      rewrite ?andb_false_r in H; try discriminate.
    repeat (apply andb_true_iff in H as [? H]).
    repeat (apply andb_true_iff; split); auto.
  - apply orb_true_iff. right. auto.
Qed.

Lemma lit_us_spaced p :
  Matches true (lit "us") p -> Matches true pat_u_s_spaced p.
Proof.
  intros H. simpl in H.
  inversion H as [| | | ? ? p1 p2 H1 H2 | | | |]; subst.
  inversion H1 as [| ? x Hx | | | | | |]; subst.
  inversion H2 as [| | | ? ? p3 p4 H3 H4 | | | |]; subst.
  inversion H3 as [| ? y Hy | | | | | |]; subst.
  inversion H4; subst.
  change ([x] ++ [y] ++ []) with ([] ++ [x] ++ [] ++ [y] ++ @nil ascii).
  unfold pat_u_s_spaced.
  repeat first [apply MCat | apply MStar0 | apply MChr; assumption].
Qed.

Lemma search_us_spaced s :
  search true pat_us s = true -> search true pat_u_s_spaced s = true.
Proof.
  unfold search. rewrite !search_chars_spec.
  intros (u & p & v & E & H). exists u, p, v.
  split; [exact E | apply lit_us_spaced, H].
Qed.

Lemma search_usa_us s :
  search true pat_usa s = true -> search true pat_us s = true.
Proof.
  unfold pat_usa, pat_us. rewrite !search_lit_iff. apply occurs_usa_us.
Qed.

(** X7. Of the six patterns, [us] and [usa] never decide: a region name
    is dropped exactly when one of [united\s+states], [u\.s\.],
    [america] and [\s*u\s*s\s*] is found in it. *)
Theorem us_and_usa_patterns_redundant s :
  is_us s =
  existsb (fun pattern => search true pattern s)
    [pat_united_states; pat_u_s_dots; pat_america; pat_u_s_spaced].
Proof.
  unfold is_us, us_patterns. cbn [existsb].
  pose proof (search_us_spaced s) as H1.
  pose proof (search_usa_us s) as H2.
  destruct (search true pat_united_states s),
           (search true pat_us s),
           (search true pat_u_s_dots s),
           (search true pat_usa s),
           (search true pat_america s),
           (search true pat_u_s_spaced s); simpl in *;
    try reflexivity;
    solve [discriminate (H1 eq_refl) | discriminate (H2 eq_refl)].
Qed.

(** X6. The US test does not look at letter case: two region names that
    differ in case only are both kept or both dropped. *)
Theorem us_test_ignores_case s1 s2 :
  lower_string s1 = lower_string s2 -> is_us s1 = is_us s2.
Proof.
  intros E. rewrite <- (is_us_lower s1), <- (is_us_lower s2), E. reflexivity.
Qed.

Lemma us_test_ignores_case_witness :
  lower_string "UNITED STATES" = lower_string "United States" /\
  is_us "UNITED STATES" = is_us "United States".
Proof.
  split; [reflexivity|].
  apply (@us_test_ignores_case "UNITED STATES" "United States").
  reflexivity.
Defined.

Section Script.

Variable parse_number : string -> option Q.
Variable number_str : Q -> string.

Abbreviation clean := (clean parse_number number_str).
Abbreviation script := (script parse_number number_str).
Abbreviation to_numeric := (to_numeric parse_number).
Abbreviation not_us := (not_us number_str).
Abbreviation line_kept := (line_kept parse_number number_str).
Abbreviation written_row := (written_row parse_number).

Lemma no_na_app r r' : no_na (r ++ r') = no_na r && no_na r'.
Proof. apply forallb_app. Qed.

(** The rows of the frame written: the kept lines, each under the label
    of its input line. *)
Lemma clean_rows_formula header lines out :
  clean (read_csv header lines) = Some out ->
  rows out =
    map (fun il => (fst il, written_row header (snd il)))
        (filter (fun il => line_kept header (snd il))
                (combine (seq 0 (List.length lines)) lines)).
Proof.
  intros Hc.
  apply clean_rows in Hc as (df1 & H1 & _ & Hrows).
  apply getitem_list_rows in H1 as [_ H1].
  rewrite Hrows, H1. clear Hrows H1.
  cbn [rename rows read_csv columns].
  change (map _ header) with (renamed header).
  rewrite !filter_map_swap, !filter_filter_and, map_map.
  rewrite (filter_ext _ (fun il => line_kept header (snd il))).
  - apply map_ext. intros [i l]. reflexivity.
  - intros [i l]. cbn [fst snd]. rewrite no_na_app.
    unfold MoreNotions.line_kept, fields.
    cbn [map kept_columns nth no_na forallb].
    rewrite !andb_true_r.
    destruct (negb (is_na (cell_of (renamed header) "state" l)) &&
              (negb (is_na (cell_of (renamed header) "year" l)) &&
               (negb (is_na (cell_of (renamed header) "month" l)) &&
                (negb (is_na (cell_of (renamed header) "drug_type" l)) &&
                 negb (is_na (cell_of (renamed header) "deaths" l))))));
      cbn [andb]; [| reflexivity].
    rewrite !andb_assoc. reflexivity.
Qed.

(** X1. The cleaning script is a line-by-line selection: the file
    written holds, in input order, the lines that pass the five tests,
    each as its five fields followed by the converted [deaths] value. *)
Theorem written_lines_formula header lines report :
  script header lines = Some report ->
  written_lines report
  = map (written_row header) (filter (line_kept header) lines) /\
  total_records report = List.length (filter (line_kept header) lines).
Proof.
  unfold CleanData.script.
  destruct (CleanData.clean parse_number number_str (read_csv header lines))
    as [df|] eqn:Hc; [| discriminate].
  cbn [bind]. rewrite (count_remaining_us_zero parse_number number_str _ _ Hc). cbn [bind].
  intros H. injection H as <-.
  unfold written_lines. cbn [csv total_records to_csv snd].
  rewrite (@clean_rows_formula header lines _ Hc).
  rewrite !map_map. cbn [snd].
  rewrite <- (filter_snd_combine (line_kept header) lines
                (seq 0 (List.length lines))) by apply length_seq.
  rewrite !map_map, !length_map. split; reflexivity.
Qed.

(** X2. The script neither duplicates nor reorders records: the labels
    of the rows written are strictly increasing positions of input
    lines. *)
Theorem written_labels_increasing header lines out :
  clean (read_csv header lines) = Some out ->
  StronglySorted lt (index out) /\
  (forall i, In i (index out) -> (i < List.length lines)%nat).
Proof.
  intros Hc. unfold index. rewrite (@clean_rows_formula header lines _ Hc).
  rewrite map_map. cbn [fst].
  assert (Hsub : forall (ls : list (list cell)) a,
             StronglySorted lt
               (map fst (filter (fun il => line_kept header (snd il))
                                (combine (seq a (List.length ls)) ls))) /\
             forall i, In i (map fst
                        (filter (fun il => line_kept header (snd il))
                                (combine (seq a (List.length ls)) ls))) ->
                       (a <= i < a + List.length ls)%nat).
  { induction ls as [| l ls IH]; intros a; simpl.
    - split; [constructor | contradiction].
    - destruct (IH (S a)) as [IHs IHb].
      destruct (line_kept header l); simpl.
      + split.
        * constructor; [exact IHs|].
          apply Forall_forall. intros i Hi. apply IHb in Hi. lia.
        * intros i [<- | Hi]; [lia | apply IHb in Hi; lia].
      + split; [exact IHs|]. intros i Hi. apply IHb in Hi. lia. }
  destruct (Hsub lines 0%nat) as [Hs Hb].
  split; [exact Hs|]. intros i Hi. apply Hb in Hi. lia.
Qed.




(** X4. The drug type of every record written is a text in which
    "opioid" occurs, letter case ignored. *)
Theorem written_drug_type_opioid header lines out i r :
  clean (read_csv header lines) = Some out ->
  In (i, r) (rows out) ->
  exists s, cell_of (columns out) "drug_type" r = Str s /\
            contains_ci "opioid" s = true.
Proof.
  intros Hc Hin. rewrite (clean_columns parse_number number_str _ Hc).
  destruct (clean_row_inv _ _ _ _ _ _ Hc Hin) as (l & _ & -> & _ & _ & _ & Ho).
  cbn.
  destruct (cell_of (renamed header) "drug_type" l) as [| q | s];
    try discriminate.
  exists s. split; [reflexivity|]. apply search_contains_ci, Ho.
Qed.

(** X5. The test on the summary label (lines 42-44) never decides: a
    line is kept exactly when it passes the four other tests, because a
    drug type equal to "number of deaths" has no "opioid" in it. *)
Theorem summary_label_test_redundant header l :
  line_kept header l =
  no_na (fields header l) &&
  not_us (cell_of (renamed header) "state" l) &&
  na_false (str_contains (lit "opioid")
              (cell_of (renamed header) "drug_type" l)) &&
  negb (is_na (to_numeric (cell_of (renamed header) "deaths" l))).
Proof.
  unfold MoreNotions.line_kept.
  destruct (cell_of (renamed header) "drug_type" l) as [| q | s];
    cbn [str_lower isin negb str_contains na_false];
    rewrite ?andb_true_r; try reflexivity.
  destruct (existsb (String.eqb (lower_string s)) ["number of deaths"])
    eqn:E; cbn [negb]; rewrite ?andb_true_r; [| reflexivity].
  cbn [existsb] in E. rewrite orb_false_r in E. apply String.eqb_eq in E.
  assert (Hs : search true (lit "opioid") s = false).
  { rewrite search_lit_iff, <- contains_ci_lower, E. reflexivity. }
  rewrite Hs, !andb_false_r. reflexivity.
Qed.

End Script.

Lemma written_lines_formula_witness :
  CleanData.script parse_integer show_number raw_header sample_lines
    = Some sample_report /\
  written_lines sample_report
  = map (MoreNotions.written_row parse_integer raw_header)
        (filter (MoreNotions.line_kept parse_integer show_number raw_header)
                sample_lines) /\
  total_records sample_report
  = List.length
      (filter (MoreNotions.line_kept parse_integer show_number raw_header)
              sample_lines).
Proof.
  split; [reflexivity|].
  apply (@written_lines_formula parse_integer show_number raw_header
           sample_lines sample_report).
  reflexivity.
Defined.

Lemma written_labels_increasing_witness :
  CleanData.clean parse_integer show_number (read_csv raw_header sample_lines)
    = Some sample_cleaned /\
  StronglySorted lt (index sample_cleaned) /\
  (forall i, In i (index sample_cleaned) ->
             (i < List.length sample_lines)%nat).
Proof.
  split; [reflexivity|].
  apply (@written_labels_increasing parse_integer show_number raw_header
           sample_lines sample_cleaned).
  reflexivity.
Defined.

Lemma written_drug_type_opioid_witness :
  CleanData.clean parse_integer show_number (read_csv raw_header sample_lines)
    = Some sample_cleaned /\
  In (0%nat, [Str "Ohio"; Num 2020; Str "January"; Str "Opioids"; Str "12";
              Num 12]) (rows sample_cleaned) /\
  exists s,
    cell_of (columns sample_cleaned) "drug_type"
      [Str "Ohio"; Num 2020; Str "January"; Str "Opioids"; Str "12"; Num 12]
    = Str s /\
    contains_ci "opioid" s = true.
Proof.
  split; [reflexivity|]. split; [left; reflexivity|].
  apply (@written_drug_type_opioid parse_integer show_number raw_header
           sample_lines sample_cleaned 0%nat).
  - reflexivity.
  - left. reflexivity.
Defined.


End CleanMore.

(* ===================================================================== *)
(** * Properties of [load_data]                                          *)
(* ===================================================================== *)

Module LoadMore.

Import Re ReFacts CleanData ListFacts Notions PatternFacts CleanMore App.

Lemma lower_upper a : lower (upper a) = lower a.
Proof. destruct a as [[] [] [] [] [] [] [] []]; reflexivity. Qed.

Lemma title_chars_lower l : forall b,
  map lower (title_chars b l) = map lower l.
Proof.
  induction l as [| c l IH]; intros b; simpl; [reflexivity|].
  rewrite IH. destruct b; rewrite ?lower_lower, ?lower_upper; reflexivity.
Qed.

Lemma lower_string_chars s :
  lower_string s = string_of_list_ascii (map lower (list_ascii_of_string s)).
Proof. induction s as [| a s IH]; simpl; [| rewrite IH]; reflexivity. Qed.

(** Title case changes letter case only. *)
Lemma lower_title s : lower_string (title s) = lower_string s.
Proof.
  rewrite !lower_string_chars. unfold title.
  rewrite list_ascii_of_string_of_list_ascii, title_chars_lower. reflexivity.
Qed.

Lemma lstrip_suffix l : exists u, l = u ++ lstrip l.
Proof.
  induction l as [| a l (u & IH)]; simpl.
  - exists []. reflexivity.
  - destruct (is_space a).
    + exists (a :: u). simpl. rewrite <- IH. reflexivity.
    + exists []. reflexivity.
Qed.

(** The stripped text is a part of the text. *)
Lemma strip_chars_factor l : exists u v, l = u ++ strip_chars l ++ v.
Proof.
  destruct (lstrip_suffix l) as (u & Hu).
  destruct (lstrip_suffix (rev (lstrip l))) as (w & Hw).
  exists u, (rev w). unfold strip_chars.
  rewrite <- rev_app_distr, <- Hw, rev_involutive. exact Hu.
Qed.

Lemma search_strip r s : search true r (strip s) = true -> search true r s = true.
Proof.
  unfold search, strip. rewrite list_ascii_of_string_of_list_ascii.
  destruct (strip_chars_factor (list_ascii_of_string s)) as (u & v & E).
  intros H. rewrite E. apply search_chars_factor, H.
Qed.

(** A region name the cleaning script keeps passes the test of
    [load_data] after normalization. *)
Lemma us_mask_normalized s :
  is_us s = false -> LoadData.us_mask (lower_string (strip s)) = true.
Proof.
  intros H. unfold LoadData.us_mask.
  change (existsb _ LoadData.us_patterns)
    with (is_us (lower_string (strip s))).
  rewrite is_us_lower. apply negb_true_iff.
  destruct (is_us (strip s)) eqn:E; [| reflexivity].
  unfold is_us in *. apply existsb_exists in E as (p & Hp & E).
  apply search_strip in E.
  assert (existsb (fun pattern => search true pattern s) us_patterns = true)
    by (apply existsb_exists; eauto).
  congruence.
Qed.

Section Load.

Variable parse_number : string -> option Q.

Abbreviation load_data := (load_data parse_number).
Abbreviation to_numeric := (to_numeric parse_number).

(** Where a loaded row comes from. *)
Lemma load_data_In csv r :
  In r (load_data csv) <->
  exists c q,
    In c csv /\
    LoadData.us_mask (lower_string (strip (csv_state c))) = true /\
    to_numeric (csv_deaths c) = Num q /\
    r = mkRow (title (lower_string (strip (csv_state c)))) (csv_year c)
              (categorical (strip (csv_month c))) (strip (csv_drug_type c)) q.
Proof.
  unfold App.load_data. rewrite in_flat_map. split.
  - intros (c2 & Hc2 & Hr).
    apply in_map_iff in Hc2 as (c1 & <- & Hc1).
    apply filter_In in Hc1 as [Hc1 Hm].
    apply in_map_iff in Hc1 as (c & <- & Hc).
    cbn [csv_state csv_year csv_month csv_drug_type csv_deaths] in *.
    destruct (CleanData.to_numeric parse_number (csv_deaths c)) as [| q |] eqn:E;
      try contradiction.
    destruct Hr as [<- | []]. exists c, q. auto.
  - intros (c & q & Hc & Hm & Hq & ->).
    set (c1 := mkCsvRow (lower_string (strip (csv_state c))) (csv_year c)
                        (strip (csv_month c)) (strip (csv_drug_type c))
                        (csv_deaths c)).
    exists (mkCsvRow (title (csv_state c1)) (csv_year c1) (csv_month c1)
                     (csv_drug_type c1) (csv_deaths c1)).
    split.
    + apply in_map_iff. exists c1. split; [reflexivity|].
      apply filter_In. split; [| exact Hm].
      apply in_map_iff. exists c. split; [reflexivity | exact Hc].
    + cbn [csv_state csv_year csv_month csv_drug_type csv_deaths c1].
      rewrite Hq. left. reflexivity.
Qed.

(** X8. No state of the frame that [load_data] returns matches a US
    pattern, also after the title case has been put back; in particular
    no loaded state contains "us". *)
Theorem loaded_state_not_us csv r :
  In r (load_data csv) ->
  is_us (state r) = false /\ contains_ci "us" (state r) = false.
Proof.
  intros H. apply load_data_In in H as (c & q & _ & Hm & _ & ->).
  cbn [state].
  assert (Hus : is_us (title (lower_string (strip (csv_state c)))) = false).
  { rewrite <- is_us_lower, lower_title, is_us_lower.
    apply negb_true_iff. exact Hm. }
  split; [exact Hus|].
  destruct (contains_ci "us" _) eqn:E; [| reflexivity].
  apply LiteralFacts.contains_ci_search in E.
  unfold is_us, us_patterns in Hus. cbn [existsb] in Hus.
  unfold pat_us in Hus. rewrite E, orb_true_r in Hus. discriminate.
Qed.

(** X9. The two stages agree: a record whose state the cleaning script
    keeps and whose deaths value converts is loaded by the dashboard,
    with its text fields normalized. *)
Theorem load_data_keeps_cleaned csv c q :
  In c csv ->
  is_us (csv_state c) = false ->
  to_numeric (csv_deaths c) = Num q ->
  In (mkRow (title (lower_string (strip (csv_state c)))) (csv_year c)
            (categorical (strip (csv_month c))) (strip (csv_drug_type c)) q)
     (load_data csv).
Proof.
  intros Hc Hus Hq. apply load_data_In. exists c, q.
  split; [exact Hc|]. split; [apply us_mask_normalized, Hus|].
  split; [exact Hq | reflexivity].
Qed.

End Load.


Lemma loaded_state_not_us_witness :
  In (mkRow "Ohio" 2020 (Some January) "Opioids" 12)
     (App.load_data parse_integer MoreNotions.sample_csv) /\
  is_us (state (mkRow "Ohio" 2020 (Some January) "Opioids" 12)) = false /\
  contains_ci "us" (state (mkRow "Ohio" 2020 (Some January) "Opioids" 12))
    = false.
Proof.
  split; [left; reflexivity|].
  apply (@loaded_state_not_us parse_integer MoreNotions.sample_csv).
  left. reflexivity.
Defined.

Lemma load_data_keeps_cleaned_witness :
  In (mkCsvRow "New York" 2021 "march" " Heroin " (Num 3))
     MoreNotions.sample_csv /\
  is_us "New York" = false /\
  CleanData.to_numeric parse_integer (Num 3) = Num 3 /\
  In (mkRow (title (lower_string (strip "New York"))) 2021
            (categorical (strip "march")) (strip " Heroin ") 3)
     (App.load_data parse_integer MoreNotions.sample_csv).
Proof.
  split; [right; left; reflexivity|].
  split; [reflexivity|]. split; [reflexivity|].
  apply (@load_data_keeps_cleaned parse_integer MoreNotions.sample_csv
           (mkCsvRow "New York" 2021 "march" " Heroin " (Num 3)) 3).
  - right. left. reflexivity.
  - reflexivity.
  - reflexivity.
Defined.

End LoadMore.

(* ===================================================================== *)
(** * More properties of the dashboard                                   *)
(* ===================================================================== *)

Module AppMore.

Import App Notions ListFacts GroupFacts QuantileFacts AppClaims.

(** ** [unique] and [sorted] *)

Lemma existsb_eqb_In x l : existsb (String.eqb x) l = true <-> In x l.
Proof. apply (isin_In x l). Qed.

Lemma unique_from_In l : forall seen x,
  In x (unique_from seen l) <-> In x l /\ ~ In x seen.
Proof.
  induction l as [| y l IH]; intros seen x; simpl; [tauto|].
  destruct (existsb (String.eqb y) seen) eqn:E.
  - apply existsb_eqb_In in E. rewrite IH. split.
    + tauto.
    + intros [[<- | H] Hn]; tauto.
  - assert (Hy : ~ In y seen).
    { intros H. apply existsb_eqb_In in H. congruence. }
    simpl. rewrite IH. simpl. split.
    + intros [<- | [H Hn]]; [tauto|]. split; [tauto|]. intros Hs. tauto.
    + intros [[<- | H] Hn]; [tauto|].
      destruct (string_dec y x) as [-> | Hne]; [tauto|]. right. tauto.
Qed.

Lemma unique_from_NoDup l : forall seen, NoDup (unique_from seen l).
Proof.
  induction l as [| y l IH]; intros seen; simpl; [constructor|].
  destruct (existsb (String.eqb y) seen); [apply IH|].
  constructor; [| apply IH].
  rewrite unique_from_In. simpl. tauto.
Qed.

Lemma unique_In l x : In x (unique l) <-> In x l.
Proof. unfold unique. rewrite unique_from_In. simpl. tauto. Qed.

Lemma unique_NoDup l : NoDup (unique l).
Proof. apply unique_from_NoDup. Qed.

Lemma insert_string_In x l y : In y (insert_string x l) <-> y = x \/ In y l.
Proof.
  induction l as [| z l IH]; simpl; [intuition|].
  destruct (cmp x z); simpl; rewrite ?IH; intuition.
Qed.

Lemma sorted_In l x : In x (sorted l) <-> In x l.
Proof.
  induction l as [| y l IH]; simpl; [tauto|].
  rewrite insert_string_In, IH. intuition.
Qed.

Lemma insert_string_length x l :
  List.length (insert_string x l) = S (List.length l).
Proof.
  induction l as [| z l IH]; simpl; [reflexivity|].
  destruct (cmp x z); simpl; rewrite ?IH; reflexivity.
Qed.

Lemma sorted_length l : List.length (sorted l) = List.length l.
Proof.
  induction l as [| y l IH]; simpl; [reflexivity|].
  rewrite insert_string_length, IH. reflexivity.
Qed.

Lemma states_In df s : In s (states df) <-> exists r, In r df /\ state r = s.
Proof.
  unfold states. rewrite sorted_In, unique_In, in_map_iff.
  split; intros (r & H1 & H2); exists r; tauto.
Qed.

Lemma drug_types_In df d :
  In d (drug_types df) <-> exists r, In r df /\ drug_type r = d.
Proof.
  unfold drug_types. rewrite sorted_In, unique_In, in_map_iff.
  split; intros (r & H1 & H2); exists r; tauto.
Qed.

(** ** Years *)

Lemma fold_min_le l : forall a,
  (fold_left Z.min l a <= a)%Z /\
  forall y, In y l -> (fold_left Z.min l a <= y)%Z.
Proof.
  induction l as [| x l IH]; intros a; simpl.
  - split; [lia | contradiction].
  - destruct (IH (Z.min a x)) as [H1 H2]. split; [lia|].
    intros y [<- | Hy]; [lia | auto].
Qed.

Lemma fold_max_ge l : forall a,
  (a <= fold_left Z.max l a)%Z /\
  forall y, In y l -> (y <= fold_left Z.max l a)%Z.
Proof.
  induction l as [| x l IH]; intros a; simpl.
  - split; [lia | contradiction].
  - destruct (IH (Z.max a x)) as [H1 H2]. split; [lia|].
    intros y [<- | Hy]; [lia | auto].
Qed.

Lemma year_min_le df lo r :
  year_min df = Some lo -> In r df -> (lo <= year r)%Z.
Proof.
  unfold year_min. intros H Hr. apply (in_map year) in Hr.
  destruct (map year df) as [| y ys]; [discriminate|].
  injection H as <-. destruct (fold_min_le ys y) as [H1 H2].
  destruct Hr as [<- | Hr]; auto.
Qed.

Lemma year_max_ge df hi r :
  year_max df = Some hi -> In r df -> (year r <= hi)%Z.
Proof.
  unfold year_max. intros H Hr. apply (in_map year) in Hr.
  destruct (map year df) as [| y ys]; [discriminate|].
  injection H as <-. destruct (fold_max_ge ys y) as [H1 H2].
  destruct Hr as [<- | Hr]; auto.
Qed.

Lemma filter_all {A : Type} (f : A -> bool) (l : list A) :
  (forall x, In x l -> f x = true) -> filter f l = l.
Proof.
  induction l as [| a l IH]; simpl; intros H; [reflexivity|].
  rewrite (H a) by auto. f_equal. apply IH. auto.
Qed.

Lemma filter_idem {A : Type} (f : A -> bool) (l : list A) :
  filter f (filter f l) = filter f l.
Proof. apply filter_all. intros x Hx. apply filter_In in Hx. tauto. Qed.

(** ** The filter *)

(** X11. Filtering is idempotent, and two selections can be applied in
    either order. *)
Theorem filtered_df_idempotent df c c' :
  filtered_df (filtered_df df c) c = filtered_df df c /\
  filtered_df (filtered_df df c) c' = filtered_df (filtered_df df c') c.
Proof.
  split; [apply filter_idem|].
  unfold filtered_df. rewrite !CleanMore.filter_filter_and.
  apply filter_ext. intros r. apply andb_comm.
Qed.

(** X12. Selecting every state and every drug type of the frame and the
    whole range of its years returns the frame unchanged. *)
Theorem filtered_df_select_all df lo hi :
  year_min df = Some lo ->
  year_max df = Some hi ->
  filtered_df df (mkCriteria (states df) (lo, hi) (drug_types df)) = df.
Proof.
  intros Hlo Hhi. unfold filtered_df. apply filter_all. intros r Hr.
  cbn [selected_states selected_years selected_drugs fst snd].
  rewrite !andb_true_iff, !isin_In, between_spec.
  rewrite states_In, drug_types_In.
  pose proof (@year_min_le df lo r Hlo Hr).
  pose proof (@year_max_ge df hi r Hhi Hr).
  repeat split; eauto.
Qed.

Lemma filtered_df_select_all_witness :
  year_min MoreNotions.sample_frame = Some 2020%Z /\
  year_max MoreNotions.sample_frame = Some 2022%Z /\
  filtered_df MoreNotions.sample_frame
    (mkCriteria (states MoreNotions.sample_frame) (2020, 2022)%Z
                (drug_types MoreNotions.sample_frame))
  = MoreNotions.sample_frame.
Proof.
  split; [reflexivity|]. split; [reflexivity|].
  apply (@filtered_df_select_all MoreNotions.sample_frame 2020%Z 2022%Z);
    reflexivity.
Defined.

(** X13. When the page opens, the selections exist exactly when the
    frame has a row (on an empty frame the conversion of the minimum
    year fails); they keep every row of the first three states in
    sorted order, whatever its year and drug type. *)
Theorem default_criteria_filter df :
  (default_criteria df = None <-> df = []) /\
  (forall c, default_criteria df = Some c ->
     filtered_df df c
     = filter (fun r => isin (state r) (firstn 3 (states df))) df).
Proof.
  split.
  - unfold default_criteria, year_min, year_max.
    destruct df as [| r df]; simpl; split; try reflexivity; discriminate.
  - intros c Hc. unfold default_criteria in Hc.
    destruct (year_min df) as [lo|] eqn:Hlo; [| discriminate].
    destruct (year_max df) as [hi|] eqn:Hhi; [| discriminate].
    injection Hc as <-. unfold filtered_df.
    cbn [selected_states selected_years selected_drugs fst snd].
    apply filter_ext_in. intros r Hr.
    assert (H1 : between (year r) lo hi = true).
    { apply between_spec. split;
        [eapply year_min_le | eapply year_max_ge]; eassumption. }
    assert (H2 : isin (drug_type r) (drug_types df) = true).
    { apply isin_In, drug_types_In. eauto. }
    rewrite H1, H2, !andb_true_r. reflexivity.
Qed.

(** X14. The "States Selected" metric counts the states that have a row
    after filtering: it is at most the number of selected states and at
    most the number of rows kept. *)
Theorem states_selected_bound df c :
  (states_selected (filtered_df df c) <= List.length (selected_states c))%nat /\
  (states_selected (filtered_df df c) <= List.length (filtered_df df c))%nat.
Proof.
  unfold states_selected. split.
  - apply NoDup_incl_length; [apply unique_NoDup|].
    intros s Hs. apply unique_In, in_map_iff in Hs as (r & <- & Hr).
    unfold filtered_df in Hr. apply filter_In in Hr as [_ Hr].
    rewrite !andb_true_iff, isin_In in Hr. tauto.
  - rewrite <- (length_map state (filtered_df df c)).
    apply NoDup_incl_length; [apply unique_NoDup|].
    intros s Hs. apply unique_In, Hs.
Qed.

End AppMore.

(* ===================================================================== *)
(** * More properties of the outlier report                              *)
(* ===================================================================== *)

Module OutlierMore.

Import App Notions ListFacts GroupFacts QuantileFacts AppClaims AppMore.

Lemma flat_map_ext_In {A B : Type} (f g : A -> list B) (l : list A) :
  (forall a, In a l -> f a = g a) -> flat_map f l = flat_map g l.
Proof.
  induction l as [| a l IH]; simpl; intros H; [reflexivity|].
  rewrite (H a) by auto. f_equal. apply IH. auto.
Qed.

Lemma flat_map_nil {A B : Type} (l : list A) :
  flat_map (fun _ : A => @nil B) l = [].
Proof. induction l; simpl; auto. Qed.

Section PerState.

(** A test on rows that may depend on the state of the group. *)
Variable f : string -> Row -> bool.

Lemma per_state_step r l ss :
  NoDup ss -> In (state r) ss ->
  Permutation
    (flat_map (fun s => filter (f s) (state_data (r :: l) s)) ss)
    (if f (state r) r
     then r :: flat_map (fun s => filter (f s) (state_data l s)) ss
     else flat_map (fun s => filter (f s) (state_data l s)) ss).
Proof.
  intros Hnd. induction Hnd as [| s ss Hs Hnd IH]; intros Hin;
    [contradiction|].
  cbn [flat_map]. unfold state_data at 1. cbn [filter].
  fold (state_data l s).
  destruct (String.eqb (state r) s) eqn:E.
  - apply String.eqb_eq in E. subst s.
    rewrite (flat_map_ext_In
               (fun s => filter (f s) (state_data (r :: l) s))
               (fun s => filter (f s) (state_data l s))).
    + cbn [filter]. destruct (f (state r) r); reflexivity.
    + intros s' Hs'. unfold state_data. cbn [filter].
      destruct (String.eqb (state r) s') eqn:E'; [| reflexivity].
      apply String.eqb_eq in E'. subst s'. contradiction.
  - assert (Hin' : In (state r) ss).
    { destruct Hin as [-> | H]; [| exact H].
      rewrite String.eqb_refl in E. discriminate. }
    specialize (IH Hin').
    destruct (f (state r) r).
    + etransitivity; [apply Permutation_app_head, IH|].
      symmetry. apply Permutation_middle.
    + apply Permutation_app_head, IH.
Qed.

Lemma per_state_partition l ss :
  NoDup ss -> (forall r, In r l -> In (state r) ss) ->
  Permutation
    (flat_map (fun s => filter (f s) (state_data l s)) ss)
    (filter (fun r => f (state r) r) l).
Proof.
  intros Hnd. induction l as [| r l IH]; intros Hin.
  - cbn [state_data filter]. rewrite flat_map_nil. constructor.
  - assert (IH' := IH (fun r' H => Hin r' (or_intror H))).
    assert (Hr : In (state r) ss) by (apply Hin; left; reflexivity).
    etransitivity; [exact (per_state_step r l Hnd Hr)|]. cbn [filter].
    destruct (f (state r) r); [apply perm_skip|]; exact IH'.
Qed.

End PerState.

Lemma outliers_perm_filter filtered :
  Permutation
    (outliers filtered)
    (filter (fun r => gt (deaths r)
                         (upper_bound (state_data filtered (state r))))
            filtered).
Proof.
  unfold outliers, state_outliers.
  apply (per_state_partition
           (fun s r => gt (deaths r) (upper_bound (state_data filtered s)))).
  - apply unique_NoDup.
  - intros r Hr. apply unique_In, in_map, Hr.
Qed.

(** X15. The outlier report holds, once each, exactly the rows whose
    deaths exceed the upper fence of their own state: it is a
    rearrangement (by state, in order of first appearance) of the rows
    of the filtered frame that pass that test. *)
Theorem outliers_characterization filtered :
  Permutation
    (outliers filtered)
    (filter (fun r => gt (deaths r)
                         (upper_bound (state_data filtered (state r))))
            filtered) /\
  (forall r,
      In r (outliers filtered) <->
      In r filtered /\
      gt (deaths r) (upper_bound (state_data filtered (state r))) = true).
Proof.
  pose proof (outliers_perm_filter filtered) as P.
  split; [exact P|]. intros r. split; intros H.
  - apply (Permutation_in _ P) in H. apply filter_In in H. exact H.
  - apply (Permutation_in _ (Permutation_sym P)). apply filter_In. exact H.
Qed.

(** ** Quantiles of one group *)

Lemma insert_sorted_In x l y : In y (insert_sorted x l) <-> y = x \/ In y l.
Proof.
  induction l as [| z l IH]; simpl; [intuition|].
  destruct (Qle_bool x z); simpl; rewrite ?IH; intuition.
Qed.

Lemma sort_In l y : In y (sort l) <-> In y l.
Proof.
  induction l as [| x l IH]; simpl; [tauto|].
  rewrite insert_sorted_In, IH. intuition.
Qed.

Lemma sorted_nth_le a : StronglySorted Qle a ->
  forall i j, (i <= j < List.length a)%nat -> nth i a 0 <= nth j a 0.
Proof.
  induction 1 as [| x a Hs IH Hall]; intros i j Hij; simpl in Hij; [lia|].
  destruct i as [| i], j as [| j]; simpl; try lia.
  - apply Qle_refl.
  - rewrite Forall_forall in Hall. apply Hall, nth_In. lia.
  - apply IH. lia.
Qed.

(** A quantile does not decrease with its level. *)
Lemma quantile_mono_level l q1 q2 :
  0 <= q1 -> q1 <= q2 -> q2 <= 1 ->
  opt_le (quantile q1 l) (quantile q2 l).
Proof.
  intros H0 H12 H1. destruct l as [| x l]; [exact I|].
  unfold quantile, opt_le.
  pose proof (sort_sorted (x :: l)) as Hs.
  pose proof (sort_length (x :: l)) as Hlen.
  set (a := sort (x :: l)) in *.
  set (n := List.length a) in *.
  assert (Hn : (1 <= n)%nat) by (rewrite Hlen; simpl; lia).
  set (N := inject_Z (Z.of_nat (n - 1))).
  assert (HN : 0 <= N).
  { unfold N. rewrite <- (Zle_Qle 0). lia. }
  set (p1 := N * q1). set (p2 := N * q2).
  assert (Hp0 : 0 <= p1) by (unfold p1; nra).
  assert (Hp12 : p1 <= p2) by (unfold p1, p2; nra).
  assert (HpN : p2 <= N) by (unfold p2; nra).
  pose proof (Qfloor_resp_le _ _ Hp0) as Hf0. change (Qfloor 0) with 0%Z in Hf0.
  pose proof (Qfloor_resp_le _ _ Hp12) as Hf12.
  pose proof (Qfloor_resp_le _ _ HpN) as HfN.
  unfold N in HfN. rewrite Qfloor_Z in HfN.
  pose proof (Qfloor_le p1) as Hg1. pose proof (Qlt_floor p1) as Hg1'.
  pose proof (Qfloor_le p2) as Hg2. pose proof (Qlt_floor p2) as Hg2'.
  rewrite inject_Z_plus in Hg1', Hg2'.
  change (inject_Z 1) with 1 in Hg1', Hg2'.
  set (f1 := Qfloor p1) in *. set (f2 := Qfloor p2) in *.
  set (lo1 := Z.to_nat f1). set (lo2 := Z.to_nat f2).
  set (hi1 := Nat.min (lo1 + 1) (n - 1)).
  set (hi2 := Nat.min (lo2 + 1) (n - 1)).
  assert (Hlo1 : (lo1 <= hi1 < n)%nat) by (unfold hi1, lo1; lia).
  assert (Hlo2 : (lo2 <= hi2 < n)%nat) by (unfold hi2, lo2; lia).
  pose proof (sorted_nth_le Hs Hlo1) as HA1.
  pose proof (sorted_nth_le Hs Hlo2) as HA2.
  destruct (Z.eq_dec f1 f2) as [E | Hne].
  - assert (lo1 = lo2) as El by (unfold lo1, lo2; congruence).
    assert (hi1 = hi2) as Eh by (unfold hi1, hi2; congruence).
    rewrite <- El, <- Eh, <- E in *. nra.
  - assert (Hh : (hi1 <= lo2 < n)%nat) by (unfold hi1, lo1, lo2; lia).
    pose proof (sorted_nth_le Hs Hh) as HB.
    nra.
Qed.

(** A quantile at a level between 0 and 1 lies between two values of
    the data. *)
Lemma quantile_bounds q x l :
  0 <= q -> q <= 1 ->
  exists v y z,
    quantile q (x :: l) = Some v /\
    In y (x :: l) /\ In z (x :: l) /\ y <= v /\ v <= z.
Proof.
  intros H0 H1. unfold quantile.
  pose proof (sort_sorted (x :: l)) as Hs.
  pose proof (sort_length (x :: l)) as Hlen.
  pose proof (fun y => proj1 (sort_In (x :: l) y)) as Hin.
  set (a := sort (x :: l)) in *.
  set (n := List.length a) in *.
  assert (Hn : (1 <= n)%nat) by (rewrite Hlen; simpl; lia).
  set (N := inject_Z (Z.of_nat (n - 1))).
  assert (HN : 0 <= N).
  { unfold N. rewrite <- (Zle_Qle 0). lia. }
  set (p := N * q).
  assert (Hp0 : 0 <= p) by (unfold p; nra).
  assert (HpN : p <= N) by (unfold p; nra).
  pose proof (Qfloor_resp_le _ _ Hp0) as Hf0. change (Qfloor 0) with 0%Z in Hf0.
  pose proof (Qfloor_resp_le _ _ HpN) as HfN.
  unfold N in HfN. rewrite Qfloor_Z in HfN.
  pose proof (Qfloor_le p) as Hg. pose proof (Qlt_floor p) as Hg'.
  rewrite inject_Z_plus in Hg'. change (inject_Z 1) with 1 in Hg'.
  set (f := Qfloor p) in *.
  set (lo := Z.to_nat f). set (hi := Nat.min (lo + 1) (n - 1)).
  assert (Hlo : (lo <= hi < n)%nat) by (unfold hi, lo; lia).
  pose proof (sorted_nth_le Hs Hlo) as HA.
  eexists. exists (nth lo a 0), (nth hi a 0).
  split; [reflexivity|].
  split; [apply Hin, nth_In; fold n; lia|].
  split; [apply Hin, nth_In; fold n; lia|].
  split; nra.
Qed.

Lemma gt_false x b : x <= b -> gt x (Some b) = false.
Proof.
  intros H. unfold gt. apply Qle_bool_iff in H. rewrite H. reflexivity.
Qed.

Lemma gt_true x b : gt x (Some b) = true -> b < x.
Proof.
  unfold gt. intros H. apply negb_true_iff in H.
  apply Qnot_le_lt. intros Hle. apply Qle_bool_iff in Hle. congruence.
Qed.

Lemma quartiles_le sd : opt_le (Q1 sd) (Q3 sd).
Proof. apply quantile_mono_level; unfold Qle; simpl; lia. Qed.

Lemma flagged_gt_Q3 sd r :
  In r (state_outliers sd) -> exists q3, Q3 sd = Some q3 /\ q3 < deaths r.
Proof.
  pose proof (quartiles_le sd) as H13.
  unfold state_outliers, upper_bound, IQR.
  destruct (Q1 sd) as [q1|], (Q3 sd) as [q3|]; simpl in H13;
    try contradiction; intros Hr; apply filter_In in Hr as [_ Hr].
  - apply gt_true in Hr. exists q3. split; [reflexivity | lra].
  - discriminate.
Qed.

(** X16. In every state group the first quartile is at most the third,
    the upper fence is at least the third quartile, and every row the
    detector flags has deaths strictly above the third quartile. *)
Theorem flagged_above_third_quartile sd :
  opt_le (Q1 sd) (Q3 sd) /\
  opt_le (Q3 sd) (upper_bound sd) /\
  (forall r, In r (state_outliers sd) ->
             exists q3, Q3 sd = Some q3 /\ q3 < deaths r).
Proof.
  pose proof (quartiles_le sd) as H13.
  split; [exact H13|]. split; [| apply flagged_gt_Q3].
  unfold upper_bound, IQR.
  destruct (Q1 sd) as [q1|], (Q3 sd) as [q3|]; simpl in *;
    try contradiction; [lra | exact I].
Qed.

(** X17. The detector never flags a whole group: a row whose deaths is
    lowest in its state group is not flagged. *)
Theorem lowest_row_not_flagged sd r :
  In r sd ->
  (forall r', In r' sd -> deaths r <= deaths r') ->
  ~ In r (state_outliers sd).
Proof.
  intros Hr Hmin Hf.
  destruct (flagged_gt_Q3 sd r Hf) as (q3 & E3 & Hlt).
  unfold Q3 in E3.
  destruct (map deaths sd) as [| x l] eqn:El.
  - destruct sd; [contradiction | discriminate].
  - assert (H0 : 0 <= 3 # 4) by (unfold Qle; simpl; lia).
    assert (H1 : 3 # 4 <= 1) by (unfold Qle; simpl; lia).
    destruct (quantile_bounds x l H0 H1) as (v & y & z & Ev & Hy & _ & Hyv & _).
    rewrite Ev in E3. injection E3 as ->.
    rewrite <- El in Hy. apply in_map_iff in Hy as (r' & <- & Hr').
    specialize (Hmin r' Hr'). lra.
Qed.

(** X18. A state group of fewer than four rows has no outlier; with
    four rows there can be one (deaths 0, 0, 0, 1 flag the last). *)
Theorem small_group_no_outliers :
  (forall sd, (List.length sd < 4)%nat -> state_outliers sd = []) /\
  state_outliers (map ohio [0; 0; 0; 1]%Z) = [ohio 1].
Proof.
  split; [| reflexivity].
  intros sd Hlen. unfold state_outliers. apply filter_nil_forall.
  intros r Hr. apply (in_map deaths) in Hr.
  unfold upper_bound, IQR, Q3, Q1.
  rewrite <- (length_map deaths) in Hlen.
  pose proof (sort_sorted (map deaths sd)) as Hs.
  pose proof (sort_length (map deaths sd)) as Hl.
  apply sort_In in Hr.
  unfold quantile.
  destruct (map deaths sd) as [| x l] eqn:El; [contradiction|].
  rewrite <- El in *. clear El x l.
  set (a := sort (map deaths sd)) in *.
  apply gt_false.
  destruct a as [| a0 [| a1 [| a2 [| a3 a]]]]; simpl in Hl; try lia;
    [contradiction | | |];
    repeat match goal with
           | |- context [Qfloor ?p] =>
               let v := eval vm_compute in (Qfloor p) in
               change (Qfloor p) with v
           end;
    cbn [List.length Nat.sub Z.of_nat Pos.of_succ_nat Pos.succ];
    simpl nth; unfold inject_Z.
  - destruct Hr as [<- | []]. lra.
  - assert (a0 <= a1) by (apply (@sorted_nth_le _ Hs 0%nat 1%nat); simpl; lia).
    destruct Hr as [<- | [<- | []]]; lra.
  - assert (a0 <= a1) by (apply (@sorted_nth_le _ Hs 0%nat 1%nat); simpl; lia).
    assert (a1 <= a2) by (apply (@sorted_nth_le _ Hs 1%nat 2%nat); simpl; lia).
    destruct Hr as [<- | [<- | [<- | []]]]; lra.
Qed.

Lemma small_group_no_outliers_witness :
  (List.length (map ohio [10; 12; 90]%Z) < 4)%nat /\
  state_outliers (map ohio [10; 12; 90]%Z) = [].
Proof.
  split; [simpl; lia|].
  apply (proj1 small_group_no_outliers (map ohio [10; 12; 90]%Z)).
  simpl. lia.
Defined.

Lemma lowest_row_not_flagged_witness :
  In (ohio 0) (map ohio [0; 0; 0; 1]%Z) /\
  (forall r', In r' (map ohio [0; 0; 0; 1]%Z) ->
              deaths (ohio 0) <= deaths r') /\
  ~ In (ohio 0) (state_outliers (map ohio [0; 0; 0; 1]%Z)).
Proof.
  assert (Hmin : forall r', In r' (map ohio [0; 0; 0; 1]%Z) ->
                            deaths (ohio 0) <= deaths r').
  { intros r' [<- | [<- | [<- | [<- | []]]]]; discriminate. }
  split; [left; reflexivity|]. split; [exact Hmin|].
  apply (@lowest_row_not_flagged (map ohio [0; 0; 0; 1]%Z) (ohio 0));
    [left; reflexivity | exact Hmin].
Defined.

(** ** The order of the rows *)

Lemma Forall2_Qle_trans a b c :
  Forall2 Qle a b -> Forall2 Qle b c -> Forall2 Qle a c.
Proof.
  intros Hab. revert c. induction Hab as [| x y a b Hxy Hab IH];
    intros c Hbc; inversion Hbc; subst; constructor.
  - eapply Qle_trans; eassumption.
  - apply IH. assumption.
Qed.

(** Two values can be inserted in either order. *)
Lemma insert_sorted_swap x y s :
  StronglySorted Qle s ->
  Forall2 Qle (insert_sorted x (insert_sorted y s))
              (insert_sorted y (insert_sorted x s)).
Proof.
  intros Hs. induction s as [| a s IH]; simpl;
    [| assert (IH' := IH ltac:(inversion Hs; assumption)); clear IH].
  - destruct (Qle_bool x y) eqn:Exy, (Qle_bool y x) eqn:Eyx;
      try apply Qle_bool_iff in Exy; try apply Qle_bool_iff in Eyx;
      try apply Qle_bool_false in Exy; try apply Qle_bool_false in Eyx;
      repeat constructor; try assumption; apply Qle_refl.
  - destruct (Qle_bool y a) eqn:Eya, (Qle_bool x a) eqn:Exa; simpl;
      rewrite ?Eya, ?Exa;
      destruct (Qle_bool x y) eqn:Exy, (Qle_bool y x) eqn:Eyx; simpl;
      rewrite ?Eya, ?Exa;
      try apply Qle_bool_iff in Exy; try apply Qle_bool_iff in Eyx;
      try apply Qle_bool_iff in Eya; try apply Qle_bool_iff in Exa;
      try apply Qle_bool_false in Exy; try apply Qle_bool_false in Eyx;
      try apply Qle_bool_false in Eya; try apply Qle_bool_false in Exa;
      repeat (constructor; [lra |]);
      solve [apply Forall2_Qle_refl | exact IH' | constructor
            |apply insert_right_le;
               [apply Forall2_Qle_refl | exact Hs | lra]
            |apply insert_left_le;
               [apply Forall2_Qle_refl | exact Hs | lra]].
Qed.

Lemma sort_permutation_le l l' :
  Permutation l l' -> Forall2 Qle (sort l) (sort l').
Proof.
  induction 1 as [| x l l' _ IH | x y l | l l' l'' _ IH1 _ IH2]; simpl.
  - constructor.
  - apply insert_sorted_le; try apply sort_sorted;
      [exact IH | apply Qle_refl].
  - apply insert_sorted_swap, sort_sorted.
  - eapply Forall2_Qle_trans; eassumption.
Qed.

Lemma quantile_le_sorted q l l' :
  List.length l = List.length l' ->
  Forall2 Qle (sort l) (sort l') ->
  opt_le (quantile q l) (quantile q l').
Proof.
  intros Hlen Hs.
  destruct l as [| x l], l' as [| x' l']; try discriminate; [exact I|].
  unfold quantile, opt_le.
  rewrite !sort_length, <- Hlen.
  set (pos := inject_Z (Z.of_nat (List.length (x :: l) - 1)) * q).
  apply interpolation_le; try (apply Forall2_nth_le; exact Hs).
  - pose proof (Qfloor_le pos). lra.
  - pose proof (Qlt_floor pos) as Hlt.
    rewrite inject_Z_plus in Hlt. change (inject_Z 1) with 1 in Hlt. lra.
Qed.

Lemma opt_le_antisym a b : opt_le a b -> opt_le b a -> opt_eq a b.
Proof.
  destruct a, b; simpl; try tauto. intros. apply Qle_antisym; assumption.
Qed.

(** A quantile does not depend on the order of the values. *)
Lemma quantile_permutation q l l' :
  Permutation l l' -> opt_eq (quantile q l) (quantile q l').
Proof.
  intros P. apply opt_le_antisym; apply quantile_le_sorted;
    solve [apply Permutation_length; auto using Permutation_sym
          |apply sort_permutation_le; auto using Permutation_sym].
Qed.

Lemma upper_bound_permutation sd sd' :
  Permutation sd sd' -> opt_eq (upper_bound sd) (upper_bound sd').
Proof.
  intros P. apply (Permutation_map deaths) in P.
  pose proof (quantile_permutation (1 # 4) P) as H1.
  pose proof (quantile_permutation (3 # 4) P) as H3.
  unfold upper_bound, IQR, Q1, Q3.
  destruct (quantile (1 # 4) (map deaths sd)),
           (quantile (1 # 4) (map deaths sd')),
           (quantile (3 # 4) (map deaths sd)),
           (quantile (3 # 4) (map deaths sd')); simpl in *; try tauto.
  lra.
Qed.

Lemma gt_opt_eq x a b : opt_eq a b -> gt x a = gt x b.
Proof.
  destruct a as [a|], b as [b|]; simpl; try tauto. intros E.
  f_equal. apply eq_true_iff_eq. rewrite !Qle_bool_iff, E. tauto.
Qed.

(** X19. The outlier report does not depend on the order of the rows:
    for a reordered frame it holds the same rows. *)
Theorem outliers_order_independent filtered filtered' :
  Permutation filtered filtered' ->
  Permutation (outliers filtered) (outliers filtered').
Proof.
  intros P.
  etransitivity; [apply outliers_perm_filter|].
  etransitivity; [| symmetry; apply outliers_perm_filter].
  rewrite (filter_ext
             (fun r => gt (deaths r)
                          (upper_bound (state_data filtered (state r))))
             (fun r => gt (deaths r)
                          (upper_bound (state_data filtered' (state r))))).
  - apply filter_permutation, P.
  - intros r. apply gt_opt_eq, upper_bound_permutation.
    apply filter_permutation, P.
Qed.

Lemma outliers_order_independent_witness :
  Permutation (map ohio [0; 0; 0; 1]%Z) (map ohio [1; 0; 0; 0]%Z) /\
  Permutation (outliers (map ohio [0; 0; 0; 1]%Z))
              (outliers (map ohio [1; 0; 0; 0]%Z)).
Proof.
  assert (P : Permutation (map ohio [0; 0; 0; 1]%Z)
                          (map ohio [1; 0; 0; 0]%Z)).
  { simpl. symmetry. apply Permutation_cons_append. }
  split; [exact P|].
  apply (@outliers_order_independent (map ohio [0; 0; 0; 1]%Z)
           (map ohio [1; 0; 0; 0]%Z)).
  exact P.
Defined.

(** X23. The outlier report follows the filter: every row it holds
    passes the three selections, and its fence is computed from the
    filtered rows of its state only. *)
Theorem outliers_follow_filter df c r :
  In r (outliers (filtered_df df c)) ->
  In r df /\
  In (state r) (selected_states c) /\
  (fst (selected_years c) <= year r <= snd (selected_years c))%Z /\
  In (drug_type r) (selected_drugs c) /\
  gt (deaths r)
     (upper_bound (state_data (filtered_df df c) (state r))) = true.
Proof.
  intros H. apply (Permutation_in _ (outliers_perm_filter _)) in H.
  apply filter_In in H as [H Hgt].
  unfold filtered_df in H at 1. apply filter_In in H as [H Hc].
  rewrite !andb_true_iff, !isin_In, between_spec in Hc. tauto.
Qed.

Lemma outliers_follow_filter_witness :
  In (ohio 1)
     (outliers (filtered_df (map ohio [0; 0; 0; 1]%Z)
                  (mkCriteria ["Ohio"] (2020, 2020)%Z ["Opioids"]))) /\
  In (ohio 1) (map ohio [0; 0; 0; 1]%Z) /\
  In (state (ohio 1)) ["Ohio"] /\
  (2020 <= year (ohio 1) <= 2020)%Z /\
  In (drug_type (ohio 1)) ["Opioids"] /\
  gt (deaths (ohio 1))
     (upper_bound
        (state_data
           (filtered_df (map ohio [0; 0; 0; 1]%Z)
              (mkCriteria ["Ohio"] (2020, 2020)%Z ["Opioids"]))
           (state (ohio 1)))) = true.
Proof.
  split; [left; reflexivity|].
  apply (@outliers_follow_filter (map ohio [0; 0; 0; 1]%Z)
           (mkCriteria ["Ohio"] (2020, 2020)%Z ["Opioids"]) (ohio 1)).
  left. reflexivity.
Defined.

End OutlierMore.

(* ===================================================================== *)
(** * More properties of the aggregates                                  *)
(* ===================================================================== *)

Module GroupMore.

Import App Notions MoreNotions ListFacts GroupFacts AppClaims AppMore.

Lemma sorted_app {A : Type} (R : A -> A -> Prop) (l1 l2 : list A) :
  StronglySorted R l1 -> StronglySorted R l2 ->
  (forall x y, In x l1 -> In y l2 -> R x y) ->
  StronglySorted R (l1 ++ l2).
Proof.
  induction 1 as [| a l1 Hs IH Hall]; intros H2 H12; simpl; [exact H2|].
  constructor.
  - apply IH; [exact H2|]. intros x y Hx Hy. apply H12; [right|]; assumption.
  - apply Forall_app. split; [exact Hall|].
    apply Forall_forall. intros y Hy. apply H12; [left; reflexivity | exact Hy].
Qed.

Lemma sorted_map {A B : Type} (R : A -> A -> Prop) (S : B -> B -> Prop)
  (g : A -> B) (l : list A) :
  (forall x y, R x y -> S (g x) (g y)) ->
  StronglySorted R l -> StronglySorted S (map g l).
Proof.
  intros Hg. induction 1 as [| a l Hs IH Hall]; simpl; constructor;
    [exact IH|].
  apply Forall_forall. intros y Hy. apply in_map_iff in Hy as (x & <- & Hx).
  rewrite Forall_forall in Hall. auto.
Qed.

Section Keys.

Context {K : Type} `{CompareLaws K}.

Lemma sorted_NoDup (ks : list K) : StronglySorted key_lt ks -> NoDup ks.
Proof.
  induction 1 as [| k ks Hs IH Hall]; constructor; [| exact IH].
  intros Hk. rewrite Forall_forall in Hall.
  exact (key_lt_irrefl (Hall _ Hk)).
Qed.

Lemma cmp_pair {L : Type} `{Compare L} (a a' : K) (b b' : L) :
  cmp (a, b) (a', b') = match cmp a a' with Eq => cmp b b' | c => c end.
Proof. reflexivity. Qed.

(** The product of two sorted lists of keys is sorted as pairs. *)
Lemma sorted_list_prod {L : Type} `{CompareLaws L}
  (ks : list K) (ls : list L) :
  StronglySorted key_lt ks -> StronglySorted key_lt ls ->
  StronglySorted key_lt (list_prod ks ls).
Proof.
  intros Hks Hls. induction Hks as [| k ks Hs IH Hall]; simpl; [constructor|].
  apply sorted_app.
  - apply (sorted_map (R := key_lt)); [| exact Hls].
    intros x y Hxy. unfold key_lt. rewrite cmp_pair, cmp_refl. exact Hxy.
  - exact IH.
  - intros x y Hx Hy. apply in_map_iff in Hx as (l & <- & Hl).
    destruct y as [k' l']. apply in_prod_iff in Hy as [Hk' _].
    rewrite Forall_forall in Hall. specialize (Hall _ Hk').
    unfold key_lt in *. rewrite cmp_pair, Hall. reflexivity.
Qed.

Variable key : Row -> option K.

Lemma has_key_iff k r : has_key key k r = true <-> key r = Some k.
Proof.
  unfold has_key. destruct (key r) as [k'|]; [| split; discriminate].
  destruct (cmp k k') eqn:E; split; intros H1; try discriminate.
  - apply cmp_eq in E. congruence.
  - reflexivity.
  - injection H1 as <-. rewrite cmp_refl in E. discriminate.
  - injection H1 as <-. rewrite cmp_refl in E. discriminate.
Qed.

(** What one row adds to the sums of the keys [ks]. *)
Lemma row_share_none ks r :
  (forall k, In k ks -> has_key key k r = false) ->
  sum (map (fun k => if has_key key k r then deaths r else 0) ks) == 0.
Proof.
  induction ks as [| k ks IH]; intros Hf; simpl map.
  - reflexivity.
  - rewrite sum_cons, (Hf k) by (left; reflexivity).
    rewrite IH by (intros k' Hk'; apply Hf; right; exact Hk'). ring.
Qed.

Lemma row_share ks r :
  NoDup ks ->
  sum (map (fun k => if has_key key k r then deaths r else 0) ks)
  == if existsb (fun k => has_key key k r) ks then deaths r else 0.
Proof.
  induction 1 as [| k ks Hk Hnd IH]; simpl map; cbn [existsb].
  - reflexivity.
  - rewrite sum_cons. destruct (has_key key k r) eqn:E; cbn [orb].
    + rewrite row_share_none; [ring|].
      intros k' Hk'. destruct (has_key key k' r) eqn:E'; [| reflexivity].
      apply has_key_iff in E, E'. congruence.
    + rewrite IH. ring.
Qed.

Lemma sum_groups_cons ks r df :
  sum (map snd (sum_groups key ks (r :: df)))
  == sum (map (fun k => if has_key key k r then deaths r else 0) ks)
     + sum (map snd (sum_groups key ks df)).
Proof.
  unfold sum_groups. rewrite !map_map. cbn [snd].
  induction ks as [| k ks IH]; simpl map.
  - reflexivity.
  - rewrite !sum_cons, IH. cbn [filter].
    destruct (has_key key k r); simpl map; rewrite ?sum_cons; ring.
Qed.

(** The sums over a duplicate-free list of keys that holds every key
    of the frame add up to the deaths of the rows that have a key. *)
Lemma sum_groups_total ks df :
  NoDup ks ->
  (forall r k, In r df -> key r = Some k -> In k ks) ->
  sum (map snd (sum_groups key ks df))
  == sum (map deaths (filter (fun r => is_some (key r)) df)).
Proof.
  intros Hnd. induction df as [| r df IH]; intros Hin.
  - unfold sum_groups. rewrite map_map. cbn [snd filter map].
    change (sum []) with 0. clear Hnd Hin.
    induction ks as [| k ks IHk]; simpl map; [reflexivity|].
    rewrite sum_cons, IHk. ring.
  - rewrite sum_groups_cons, (row_share r Hnd), IH
      by (intros r' k Hr'; apply Hin; right; exact Hr').
    cbn [filter]. destruct (key r) as [k|] eqn:E; cbn [is_some].
    + assert (Hex : existsb (fun k0 => has_key key k0 r) ks = true).
      { apply existsb_exists. exists k. split.
        - apply (Hin r k); [left; reflexivity | exact E].
        - apply has_key_iff, E. }
      rewrite Hex. simpl map. rewrite sum_cons. reflexivity.
    + assert (Hex : existsb (fun k0 => has_key key k0 r) ks = false).
      { destruct (existsb _ ks) eqn:Hex; [| reflexivity].
        apply existsb_exists in Hex as (k & _ & Hk).
        apply has_key_iff in Hk. congruence. }
      rewrite Hex. ring.
Qed.

End Keys.

(** ** The trend and proportion aggregates *)

Lemma month_order_sorted : StronglySorted key_lt month_order.
Proof.
  unfold month_order.
  repeat (constructor; [| repeat (constructor; try reflexivity)]).
  constructor.
Qed.

Lemma month_order_all m : In m month_order.
Proof. destruct m; simpl; tauto. Qed.

Lemma trend_keys_sorted observed df :
  StronglySorted key_lt (trend_keys observed df).
Proof.
  unfold trend_keys. destruct observed.
  - apply group_keys_sorted.
  - apply sorted_list_prod; [apply sorted_list_prod|];
      solve [apply group_keys_sorted | apply month_order_sorted].
Qed.

Lemma trend_keys_closed observed df r k :
  In r df -> trend_key r = Some k -> In k (trend_keys observed df).
Proof.
  intros Hr Hk. unfold trend_keys. destruct observed.
  - apply group_keys_In. eauto.
  - unfold trend_key in Hk. destruct (month r) as [m|]; [| discriminate].
    injection Hk as <-.
    apply in_prod_iff. split; [apply in_prod_iff; split|].
    + apply group_keys_In. eauto.
    + apply month_order_all.
    + apply group_keys_In. eauto.
Qed.

Lemma trend_df_keys observed df :
  map fst (trend_df observed df) = trend_keys observed df.
Proof.
  unfold trend_df, sum_groups. rewrite map_map. cbn [fst]. apply map_id.
Qed.

Lemma trend_total observed filtered :
  sum (map snd (trend_df observed filtered))
  == sum (map deaths (filter (fun r => is_some (month r)) filtered)).
Proof.
  unfold trend_df.
  rewrite (sum_groups_total trend_key (ks := trend_keys observed filtered)).
  - rewrite (filter_ext (fun r => is_some (trend_key r))
                        (fun r => is_some (month r))); [reflexivity|].
    intros r. unfold trend_key. destruct (month r); reflexivity.
  - apply sorted_NoDup, trend_keys_sorted.
  - intros r k Hr Hk. exact (trend_keys_closed observed filtered r Hr Hk).
Qed.

(** X20. Aggregation keeps totals: the deaths of the trend rows add up
    to the deaths of the filtered rows that have a month (to the "Total
    Deaths" metric when every row has one), and the deaths of the
    proportion rows add up to the deaths of all rows of the frame in
    the selected year range. *)
Theorem aggregates_keep_totals :
  (forall observed filtered,
      sum (map snd (trend_df observed filtered))
      == sum (map deaths (filter (fun r => is_some (month r)) filtered))) /\
  (forall observed filtered,
      (forall r, In r filtered -> month r <> None) ->
      sum (map snd (trend_df observed filtered)) == total_deaths filtered) /\
  (forall df c,
      sum (map snd (pie_df df c))
      == total_deaths
           (filter (fun r => between (year r) (fst (selected_years c))
                                     (snd (selected_years c))) df)).
Proof.
  split; [exact trend_total|]. split.
  - intros observed filtered Hm. rewrite trend_total. unfold total_deaths.
    rewrite filter_all; [reflexivity|].
    intros r Hr. specialize (Hm r Hr). destruct (month r); [reflexivity|].
    congruence.
  - intros df c. unfold pie_df, groupby_sum, total_deaths.
    rewrite (sum_groups_total (fun r => Some (drug_type r))).
    + rewrite filter_all; [reflexivity|]. intros r _. reflexivity.
    + apply sorted_NoDup, group_keys_sorted.
    + intros r k Hr Hk. apply group_keys_In. eauto.
Qed.

Lemma trend_key_lt (y y' : Z) (m m' : Month) (s s' : string) :
  key_lt (y, m, s) (y', m', s') <->
  (y < y')%Z \/
  (y = y' /\ (month_code m < month_code m')%Z) \/
  (y = y' /\ m = m' /\ String_as_OT.lt s s').
Proof.
  unfold key_lt. rewrite !cmp_pair.
  change (cmp y y') with (Z.compare y y').
  destruct (Z.compare_spec y y') as [-> | Hlt | Hgt].
  - change (cmp m m') with (Z.compare (month_code m) (month_code m')).
    destruct (Z.compare_spec (month_code m) (month_code m')) as [E | Hl | Hg].
    + assert (m = m') as ->.
      { apply cmp_eq. unfold cmp, Compare_Month. rewrite E.
        apply Z.compare_refl. }
      split.
      * intros Hs. right. right. auto.
      * intros [Hl | [[_ Hl] | (_ & _ & Hs)]]; [lia | lia | exact Hs].
    + split; [intros _; right; left; auto | reflexivity].
    + split; [discriminate|].
      intros [Hl | [[_ Hl] | (_ & -> & _)]]; lia.
  - split; [intros _; left; exact Hlt | reflexivity].
  - split; [discriminate|]. intros [Hl | [[-> _] | (-> & _)]]; lia.
Qed.

(** X21. The rows of the trend aggregate come with distinct keys in
    chronological order: by year, then by month in calendar order (the
    order of [month_order], not the alphabet), then by state; with
    [observed=True] the keys are exactly the (year, month, state) of
    the rows that have a month. *)
Theorem trend_df_chronological :
  (forall observed df,
      StronglySorted key_lt (map fst (trend_df observed df)) /\
      NoDup (map fst (trend_df observed df))) /\
  (forall df k,
      In k (map fst (trend_df true df)) <->
      exists r m, In r df /\ month r = Some m /\ k = (year r, m, state r)) /\
  (forall (y y' : Z) (m m' : Month) (s s' : string),
      key_lt (y, m, s) (y', m', s') <->
      (y < y')%Z \/
      (y = y' /\ (month_code m < month_code m')%Z) \/
      (y = y' /\ m = m' /\ String_as_OT.lt s s')).
Proof.
  split; [| split; [| exact trend_key_lt]].
  - intros observed df. rewrite trend_df_keys.
    pose proof (trend_keys_sorted observed df) as Hs.
    split; [exact Hs | apply sorted_NoDup, Hs].
  - intros df k. rewrite trend_df_keys. unfold trend_keys.
    rewrite group_keys_In. unfold trend_key. split.
    + intros (r & Hr & Hk). destruct (month r) as [m|] eqn:E;
        [| discriminate].
      injection Hk as <-. exists r, m. auto.
    + intros (r & m & Hr & Hm & ->). exists r. rewrite Hm. auto.
Qed.

(** X22. The proportion aggregate has one row for each drug type that
    occurs in the frame within the selected years, whether or not that
    drug type or the row's state is selected, in increasing order of
    the drug type. *)
Theorem pie_df_rows df c :
  StronglySorted key_lt (map fst (pie_df df c)) /\
  NoDup (map fst (pie_df df c)) /\
  (forall d,
      In d (map fst (pie_df df c)) <->
      exists r, In r df /\ drug_type r = d /\
                (fst (selected_years c) <= year r <= snd (selected_years c))%Z).
Proof.
  unfold pie_df, groupby_sum, sum_groups. rewrite map_map. cbn [fst].
  rewrite map_id.
  set (rows := filter _ df).
  pose proof (group_keys_sorted (fun r => Some (drug_type r)) rows) as Hs.
  split; [exact Hs|]. split; [apply sorted_NoDup, Hs|].
  intros d. rewrite group_keys_In. unfold rows. split.
  - intros (r & Hr & E). apply filter_In in Hr as [Hr Hy].
    apply between_spec in Hy. injection E as <-. eauto.
  - intros (r & Hr & <- & Hy). exists r. split; [| reflexivity].
    apply filter_In. split; [exact Hr | apply between_spec, Hy].
Qed.

End GroupMore.
